(** * Terminal Task Manager (src/app.py): a shallow embedding and its properties

    The development follows the source file top-down: the Python values the
    program manipulates (strings, JSON documents), the two enumerations, the
    [Task] dataclass, and then the methods of [TodoApp].  Interactive methods
    take the lines typed by the user as arguments, in the order the method
    asks for them, and return the new application state together with the
    outcome shown to the user. *)

From Stdlib Require Import ZArith NArith List String Ascii PrimInt63 PrimFloat.
From stdpp Require Import base decidable option numbers list countable gmap sorting.

Local Open Scope Z_scope.

(** ** Python strings

    A Python [str] is a sequence of Unicode code points.  String literals of
    the source are written as Rocq strings (UTF-8 bytes) and decoded.  A
    string may hold a lone surrogate (an escape in the data file gives one),
    which no UTF-8 file can take: see [save_tasks]. *)

Definition pystr := list N.

Module Utf8.

Definition bytes_of (s : string) : list N :=
  map N_of_ascii (list_ascii_of_string s).

Fixpoint decode (bs : list N) : pystr :=
  match bs with
  | [] => []
  | b0 :: r0 =>
    if (b0 <? 128)%N then b0 :: decode r0
    else match r0 with
    | [] => []
    | b1 :: r1 =>
      if (b0 <? 224)%N then ((b0 - 192) * 64 + (b1 - 128))%N :: decode r1
      else match r1 with
      | [] => []
      | b2 :: r2 =>
        if (b0 <? 240)%N
        then ((b0 - 224) * 4096 + (b1 - 128) * 64 + (b2 - 128))%N :: decode r2
        else match r2 with
        | [] => []
        | b3 :: r3 =>
          ((b0 - 240) * 262144 + (b1 - 128) * 4096
           + (b2 - 128) * 64 + (b3 - 128))%N :: decode r3
        end
      end
    end
  end.

End Utf8.

(** [str_of "..."] is the Python string written between the quotes. *)
Definition str_of (s : string) : pystr := Utf8.decode (Utf8.bytes_of s).

(** *** [str.isspace] on one character, [str.strip()]

    The characters Python regards as whitespace (the Unicode bidirectional
    classes WS, B, S and the category Zs). *)
Definition py_isspace (c : N) : bool :=
  ((9 <=? c) && (c <=? 13) || (28 <=? c) && (c <=? 32)
   || (c =? 133) || (c =? 160) || (c =? 5760)
   || (8192 <=? c) && (c <=? 8202)
   || (c =? 8232) || (c =? 8233) || (c =? 8239) || (c =? 8287)
   || (c =? 12288))%N.

Fixpoint py_lstrip (s : pystr) : pystr :=
  match s with
  | [] => []
  | c :: r => if py_isspace c then py_lstrip r else s
  end.

Definition py_rstrip (s : pystr) : pystr := rev (py_lstrip (rev s)).

Definition py_strip (s : pystr) : pystr := py_rstrip (py_lstrip s).

(** *** [int(s)] for a string argument

    CPython first maps every non-ASCII whitespace character to a blank and
    every Unicode decimal digit to its ASCII digit, then reads: blanks, an
    optional sign, decimal digits with single underscores between them,
    blanks, end of string.  Anything else raises [ValueError] ([None] here).
    [decimal_zeros] lists the digit zero of every decimal-digit block of the
    Unicode database (version 14; each block has ten consecutive digits).
    The interpreter's bound on the number of digits it accepts is left out. *)
Definition decimal_zeros : list N :=
  [48; 1632; 1776; 1984; 2406; 2534; 2662; 2790; 2918; 3046; 3174; 3302;
   3430; 3558; 3664; 3792; 3872; 4160; 4240; 6112; 6160; 6470; 6608; 6784;
   6800; 6992; 7088; 7232; 7248; 42528; 43216; 43264; 43472; 43504; 43600;
   44016; 65296; 66720; 68912; 69734; 69872; 69942; 70096; 70384; 70736;
   70864; 71248; 71360; 71472; 71904; 72016; 72784; 73040; 73120; 92768;
   92864; 93008; 120782; 120792; 120802; 120812; 120822; 123200; 123632;
   125264; 130032]%N.

Fixpoint decimal_in (zeros : list N) (c : N) : option Z :=
  match zeros with
  | [] => None
  | z :: zs =>
    if ((z <=? c) && (c <? z + 10))%N then Some (Z.of_N (c - z))
    else decimal_in zs c
  end.

Definition py_decimal (c : N) : option Z := decimal_in decimal_zeros c.

Definition int_space (c : N) : bool :=
  ((9 <=? c) && (c <=? 13) || (c =? 32) || (127 <=? c) && py_isspace c)%N.

Fixpoint int_skip (s : pystr) : pystr :=
  match s with
  | [] => []
  | c :: r => if int_space c then int_skip r else s
  end.

(** [need] is true at the start and after an underscore, where a digit must
    follow. *)
Fixpoint int_digits (need : bool) (acc : Z) (s : pystr) : option (Z * pystr) :=
  match s with
  | [] => if need then None else Some (acc, [])
  | c :: r =>
    match py_decimal c with
    | Some d => int_digits false (10 * acc + d) r
    | None =>
      if need then None
      else if (c =? 95)%N then int_digits true acc r
      else Some (acc, s)
    end
  end.

Definition int_unsigned (s : pystr) : option Z :=
  match int_digits true 0 s with
  | Some (v, rest) => match int_skip rest with [] => Some v | _ => None end
  | None => None
  end.

Definition py_int (s : pystr) : option Z :=
  match int_skip s with
  | 43%N :: r => int_unsigned r
  | 45%N :: r => Z.opp <$> int_unsigned r
  | r => int_unsigned r
  end.

(** *** [s.split(',')] *)
Fixpoint py_split_comma (s : pystr) : list pystr :=
  match s with
  | [] => [[]]
  | c :: r =>
    if (c =? 44)%N then [] :: py_split_comma r
    else match py_split_comma r with
         | h :: t => (c :: h) :: t
         | [] => [[c]]
         end
  end.

(** *** Indexing a list, [l[i]]: negative indices count from the end, an
    index outside [-len, len) raises [IndexError] ([None] here). *)
Definition py_getitem {A} (l : list A) (i : Z) : option A :=
  let n := Z.of_nat (length l) in
  if decide (0 <= i < n) then l !! Z.to_nat i
  else if decide (- n <= i < 0) then l !! Z.to_nat (n + i)
  else None.

(** *** Comparison of strings ([<=] on [str]): lexicographic on code points. *)
Fixpoint str_leb (a b : pystr) : bool :=
  match a, b with
  | [], _ => true
  | _ :: _, [] => false
  | x :: a', y :: b' =>
    if (x <? y)%N then true else if (y <? x)%N then false else str_leb a' b'
  end.

Definition str_le (a b : pystr) : Prop := str_leb a b = true.

(** ** Exceptions and results

    [outcome A] is the result of an expression that may raise. *)
Inductive exn :=
  | OSError | JSONDecodeError | TypeError | KeyError (key : pystr)
  | ValueError | IndexError | ZeroDivisionError | UnicodeEncodeError.

Inductive outcome (A : Type) :=
  | Ok (a : A)
  | Raise (e : exn).
Arguments Ok {A} a.
Arguments Raise {A} e.

#[export] Instance outcome_ret : MRet outcome := @Ok.
#[export] Instance outcome_bind : MBind outcome := λ A B f m,
  match m with Ok a => f a | Raise e => Raise e end.

(** ** JSON documents, as [json.load] returns them

    A number literal without fraction or exponent is a Python [int]; any
    other number literal is a [float], kept here by its text.  An object is
    a [dict]: its keys in insertion order, lookup takes the first binding. *)
#[warnings="-register-all"] Inductive json :=
  | JNull
  | JBool (b : bool)
  | JInt (z : Z)
  | JFloat (text : pystr)
  | JStr (s : pystr)
  | JArr (items : list json)
  | JObj (members : list (pystr * json)).

Fixpoint dict_get (key : pystr) (members : list (pystr * json)) : option json :=
  match members with
  | [] => None
  | (k, v) :: rest => if decide (k = key) then Some v else dict_get key rest
  end.

(** [task_data[key]] *)
Definition subscript (task_data : json) (key : pystr) : outcome json :=
  match task_data with
  | JObj members =>
    match dict_get key members with
    | Some v => Ok v
    | None => Raise (KeyError key)
    end
  | _ => Raise TypeError
  end.

(** [task_data.get(key, default)], reached only when [task_data] is a dict. *)
Definition dict_get_default (task_data : json) (key : pystr) (dflt : json)
    : outcome json :=
  match task_data with
  | JObj members => Ok (default dflt (dict_get key members))
  | _ => Raise TypeError
  end.

(** Iterating a JSON value, [for task_data in data]: a list yields its items,
    a dict its keys, a string its characters; the other values are not
    iterable. *)
Definition py_iter (data : json) : outcome (list json) :=
  match data with
  | JArr items => Ok items
  | JObj members => Ok (map (λ kv, JStr (fst kv)) members)
  | JStr s => Ok (map (λ c, JStr [c]) s)
  | _ => Raise TypeError
  end.

(** ** The enumerations *)
Inductive Priority := LOW | MEDIUM | HIGH | URGENT.
Inductive Status := TODO | IN_PROGRESS | DONE | CANCELLED.

#[export] Instance Priority_eq_dec : EqDecision Priority.
Proof. solve_decision. Defined.
#[export] Instance Status_eq_dec : EqDecision Status.
Proof. solve_decision. Defined.

(** [member.value]: the label text, which is also the stored form. *)
Definition Priority_value (p : Priority) : pystr :=
  match p with
  | LOW => str_of "Низкий"
  | MEDIUM => str_of "Средний"
  | HIGH => str_of "Высокий"
  | URGENT => str_of "Срочный"
  end.

Definition Status_value (s : Status) : pystr :=
  match s with
  | TODO => str_of "К выполнению"
  | IN_PROGRESS => str_of "В процессе"
  | DONE => str_of "Выполнено"
  | CANCELLED => str_of "Отменено"
  end.

(** [list(Priority)], [list(Status)]: the members in definition order. *)
Definition list_Priority : list Priority := [LOW; MEDIUM; HIGH; URGENT].
Definition list_Status : list Status := [TODO; IN_PROGRESS; DONE; CANCELLED].

(** [Priority(v)], [Status(v)]: the member whose value equals [v], or
    [ValueError].  Only a string can equal a label. *)
Definition by_value {E} (members : list E) (value : E → pystr) (v : json)
    : outcome E :=
  match v with
  | JStr s =>
    match list_find (λ m, value m = s) members with
    | Some (_, m) => Ok m
    | None => Raise ValueError
    end
  | _ => Raise ValueError
  end.

Definition Priority_call : json → outcome Priority :=
  by_value list_Priority Priority_value.
Definition Status_call : json → outcome Status :=
  by_value list_Status Status_value.

(** ** The [Task] dataclass

    The fields carry the types of their annotations; [tags] is never [None]
    once constructed ([__post_init__]). *)
Record Task := mkTask {
  id : Z;
  title : pystr;
  description : pystr;
  priority : Priority;
  status : Status;
  created_at : pystr;
  due_date : option pystr;
  tags : list pystr
}.

#[export] Instance Task_eq_dec : EqDecision Task.
Proof. solve_decision. Defined.

Definition to_dict (self : Task) : json :=
  JObj [ (str_of "id", JInt (id self));
         (str_of "title", JStr (title self));
         (str_of "description", JStr (description self));
         (str_of "priority", JStr (Priority_value (priority self)));
         (str_of "status", JStr (Status_value (status self)));
         (str_of "created_at", JStr (created_at self));
         (str_of "due_date",
            match due_date self with Some d => JStr d | None => JNull end);
         (str_of "tags", JArr (map JStr (tags self))) ].

(** Assignments to a field of a task. *)
Definition set_title (t : Task) (v : pystr) : Task :=
  mkTask (id t) v (description t) (priority t) (status t) (created_at t)
         (due_date t) (tags t).
Definition set_description (t : Task) (v : pystr) : Task :=
  mkTask (id t) (title t) v (priority t) (status t) (created_at t)
         (due_date t) (tags t).
Definition set_status (t : Task) (v : Status) : Task :=
  mkTask (id t) (title t) (description t) (priority t) v (created_at t)
         (due_date t) (tags t).

(** ** [TodoApp]: the task list and the id counter

    The colour table and the data file name only serve the display; the
    data file itself is the [Disk] below. *)
Record TodoApp := mkApp {
  tasks : list Task;
  current_id : Z
}.

(** What [open] and [json.load] find at the data file's path. *)
Inductive FileContent :=
  | Unreadable                (* [open] or the decoding of the bytes raises *)
  | Malformed                 (* the text is not JSON *)
  | Document (data : json).

Record Disk := mkDisk {
  file : option FileContent;  (* [None]: the path does not exist *)
  writable : bool             (* whether [open(..., 'w')] succeeds *)
}.

(** ** [TodoApp.load_tasks]

    The arguments of the call [Task(id=task_data['id'], ...)], evaluated in
    the order they are written; the first that raises ends the evaluation. *)
Record TaskArgs := mkArgs {
  arg_id : json;
  arg_title : json;
  arg_description : json;
  arg_priority : Priority;
  arg_status : Status;
  arg_created_at : json;
  arg_due_date : json;
  arg_tags : json
}.

Definition task_arguments (task_data : json) : outcome TaskArgs :=
  a_id ← subscript task_data (str_of "id");
  a_title ← subscript task_data (str_of "title");
  a_description ← subscript task_data (str_of "description");
  a_priority ← subscript task_data (str_of "priority") ≫= Priority_call;
  a_status ← subscript task_data (str_of "status") ≫= Status_call;
  a_created_at ← subscript task_data (str_of "created_at");
  a_due_date ← dict_get_default task_data (str_of "due_date") JNull;
  a_tags ← dict_get_default task_data (str_of "tags") (JArr []);
  mret (mkArgs a_id a_title a_description a_priority a_status a_created_at
               a_due_date a_tags).

(** The constructor stores its arguments as they come.  The embedding keeps
    the tasks whose fields have the annotated types: an [int] id, [str]
    title, description and creation time, a [str] or [None] due date, a list
    of [str] (or [None], which [__post_init__] turns into the empty list) as
    tags.  For any other argument the answer is [None], and nothing is
    claimed about such a document: there the program appends the object as
    it is, and comparing its id with the counter may raise after the append
    or leave a counter that is not an integer. *)
Definition as_int (v : json) : option Z :=
  match v with JInt z => Some z | _ => None end.
Definition as_str (v : json) : option pystr :=
  match v with JStr s => Some s | _ => None end.
Definition as_optional_str (v : json) : option (option pystr) :=
  match v with JNull => Some None | JStr s => Some (Some s) | _ => None end.
Definition as_str_list (v : json) : option (list pystr) :=
  match v with JNull => Some [] | JArr items => mapM as_str items | _ => None end.

Definition Task_init (a : TaskArgs) : option Task :=
  v_id ← as_int (arg_id a);
  v_title ← as_str (arg_title a);
  v_description ← as_str (arg_description a);
  v_created_at ← as_str (arg_created_at a);
  v_due_date ← as_optional_str (arg_due_date a);
  v_tags ← as_str_list (arg_tags a);
  Some (mkTask v_id v_title v_description (arg_priority a) (arg_status a)
               v_created_at v_due_date v_tags).

(** One turn of the loop, after the task is built: append, then move the
    counter past the task's id. *)
Definition load_append (app : TodoApp) (task : Task) : TodoApp :=
  let app1 := mkApp (tasks app ++ [task]) (current_id app) in
  if decide (id task >= current_id app1)
  then mkApp (tasks app1) (id task + 1)
  else app1.

(** The loop inside the [try].  The tasks appended before an exception
    stay in [self.tasks]: the result pairs the state reached with the
    exception that ended the loop, if any. *)
Fixpoint load_loop (data : list json) (app : TodoApp)
    : option (TodoApp * option exn) :=
  match data with
  | [] => Some (app, None)
  | task_data :: rest =>
    match task_arguments task_data with
    | Raise e => Some (app, Some e)
    | Ok args =>
      match Task_init args with
      | None => None
      | Some task => load_loop rest (load_append app task)
      end
    end
  end.

(** [load_tasks]: every exception is caught and reported, so the method
    always returns; the second component is the reported exception. *)
Definition load_tasks (disk : Disk) (app : TodoApp)
    : option (TodoApp * option exn) :=
  match file disk with
  | None => Some (app, None)
  | Some Unreadable => Some (app, Some OSError)
  | Some Malformed => Some (app, Some JSONDecodeError)
  | Some (Document data) =>
    match py_iter data with
    | Raise e => Some (app, Some e)
    | Ok items => load_loop items app
    end
  end.

(** [TodoApp.__init__] *)
Definition TodoApp_init (disk : Disk) : option (TodoApp * option exn) :=
  load_tasks disk (mkApp [] 1).

(** ** [TodoApp.save_tasks]

    [open(..., 'w')] empties the file; [json.dump] then writes the list of
    dicts piece by piece, keeping non-ASCII characters as they are
    ([ensure_ascii=False]).  A string with a surrogate code point cannot be
    encoded in UTF-8: the write of that piece raises, and the file is left
    with the text written so far, which is not JSON.  Otherwise what a later
    [json.load] reads from the file is the document written. *)
Definition utf8_encodable (c : N) : bool :=
  ((c <? 55296) || (57343 <? c) && (c <? 1114112))%N.

Definition str_encodable (s : pystr) : bool := forallb utf8_encodable s.

Definition task_encodable (t : Task) : bool :=
  str_encodable (title t) && str_encodable (description t)
  && str_encodable (created_at t)
  && match due_date t with Some d => str_encodable d | None => true end
  && forallb str_encodable (tags t).

Definition save_tasks (app : TodoApp) (disk : Disk) : Disk * option exn :=
  if writable disk then
    if forallb task_encodable (tasks app)
    then (mkDisk (Some (Document (JArr (map to_dict (tasks app))))) true, None)
    else (mkDisk (Some Malformed) true, Some UnicodeEncodeError)
  else (disk, Some OSError).

(** ** What a method tells the user *)
Inductive Report :=
  | TitleEmpty              (* the title may not be empty *)
  | Added (task : Task)
  | NoTasks                 (* the list is empty, nothing was asked *)
  | AllDone                 (* every task is already done *)
  | InvalidId               (* the [except ValueError] branch *)
  | NotFound
  | Updated (task : Task)
  | Completed (task : Task)
  | Deleted (task : Task)
  | Kept (task : Task).     (* deletion not confirmed *)

(** [next((t for t in self.tasks if t.id == task_id), None)], with the
    position of the task found. *)
Definition find_task (app : TodoApp) (task_id : Z) : option (nat * Task) :=
  list_find (λ t, id t = task_id) (tasks app).

(** ** [TodoApp.add_task]

    [now] is the creation time as [strftime] formats it; the other
    arguments are the five lines read. *)
Definition choose_priority (priority_in : pystr) : Priority :=
  match py_int priority_in with
  | Some priority_choice =>
    match py_getitem list_Priority (priority_choice - 1) with
    | Some p => p
    | None => MEDIUM
    end
  | None => MEDIUM
  end.

Definition split_tags (tags_input : pystr) : list pystr :=
  filter (λ tag, tag ≠ []) (map py_strip (py_split_comma tags_input)).

Definition add_task (app : TodoApp)
    (now title_in description_in priority_in due_date_in tags_in : pystr)
    : TodoApp * Report :=
  let title := py_strip title_in in
  if decide (title = []) then (app, TitleEmpty)
  else
    let description := py_strip description_in in
    let priority := choose_priority priority_in in
    let due_date := py_strip due_date_in in
    let tags := split_tags (py_strip tags_in) in
    let task :=
      mkTask (current_id app) title description priority TODO now
             (if decide (due_date = []) then None else Some due_date) tags in
    (mkApp (tasks app ++ [task]) (current_id app + 1), Added task).

(** ** [TodoApp.edit_task] *)
Definition choose_status (current : Status) (status_in : pystr) : Status :=
  let status_input := py_strip status_in in
  if decide (status_input = []) then current
  else
    match py_int status_input with
    | Some n =>
      match py_getitem list_Status (n - 1) with
      | Some s => s
      | None => current
      end
    | None => current
    end.

Definition edit_fields (task : Task) (title_in description_in status_in : pystr)
    : Task :=
  let new_title := py_strip title_in in
  let task1 := if decide (new_title = []) then task else set_title task new_title in
  let new_desc := py_strip description_in in
  let task2 := if decide (new_desc = []) then task1 else set_description task1 new_desc in
  set_status task2 (choose_status (status task2) status_in).

Definition edit_task (app : TodoApp)
    (id_in title_in description_in status_in : pystr) : TodoApp * Report :=
  match tasks app with
  | [] => (app, NoTasks)
  | _ =>
    match py_int id_in with
    | None => (app, InvalidId)
    | Some task_id =>
      match find_task app task_id with
      | None => (app, NotFound)
      | Some (i, task) =>
        let task' := edit_fields task title_in description_in status_in in
        (mkApp (<[i := task']> (tasks app)) (current_id app), Updated task')
      end
    end
  end.

(** ** [TodoApp.delete_task]

    [list.remove(x)] deletes the first item equal to [x] and raises
    [ValueError] when there is none; dataclass instances are equal when all
    their fields are.  [confirm.lower() == 'y'] holds for the two strings
    [y] and [Y]. *)
Fixpoint py_remove (x : Task) (l : list Task) : option (list Task) :=
  match l with
  | [] => None
  | y :: r => if decide (y = x) then Some r else cons y <$> py_remove x r
  end.

Definition lower_is_y (confirm : pystr) : bool :=
  bool_decide (confirm = str_of "y") || bool_decide (confirm = str_of "Y").

Definition delete_task (app : TodoApp) (id_in confirm_in : pystr)
    : TodoApp * Report :=
  match tasks app with
  | [] => (app, NoTasks)
  | _ =>
    match py_int id_in with
    | None => (app, InvalidId)
    | Some task_id =>
      match find_task app task_id with
      | None => (app, NotFound)
      | Some (_, task) =>
        if lower_is_y confirm_in then
          match py_remove task (tasks app) with
          | Some rest => (mkApp rest (current_id app), Deleted task)
          | None => (app, InvalidId)
          end
        else (app, Kept task)
      end
    end
  end.

(** ** [TodoApp.complete_task] *)
Definition complete_task (app : TodoApp) (id_in : pystr) : TodoApp * Report :=
  match tasks app with
  | [] => (app, NoTasks)
  | _ =>
    match filter (λ t, status t ≠ DONE) (tasks app) with
    | [] => (app, AllDone)
    | _ =>
      match py_int id_in with
      | None => (app, InvalidId)
      | Some task_id =>
        match find_task app task_id with
        | None => (app, NotFound)
        | Some (i, task) =>
          let task' := set_status task DONE in
          (mkApp (<[i := task']> (tasks app)) (current_id app), Completed task')
        end
      end
    end
  end.

(** ** The menu loop of [TodoApp.run], for the choices that change the
    store: each command carries the lines its method reads. *)
Inductive command :=
  | CmdAdd (now title_in description_in priority_in due_date_in tags_in : pystr)
  | CmdEdit (id_in title_in description_in status_in : pystr)
  | CmdComplete (id_in : pystr)
  | CmdDelete (id_in confirm_in : pystr).

Definition step (app : TodoApp) (c : command) : TodoApp * Report :=
  match c with
  | CmdAdd now t d p due tg => add_task app now t d p due tg
  | CmdEdit i t d s => edit_task app i t d s
  | CmdComplete i => complete_task app i
  | CmdDelete i y => delete_task app i y
  end.

(** The state after a sequence of commands, with the reports in order. *)
Fixpoint run (app : TodoApp) (cs : list command) : TodoApp * list Report :=
  match cs with
  | [] => (app, [])
  | c :: rest =>
    let '(app1, r) := step app c in
    let '(app2, rs) := run app1 rest in
    (app2, r :: rs)
  end.

(** ** Floating-point numbers

    Python's [float] is the IEEE binary64 format, here the primitive
    [float].  The conversions below are exact for the integers of absolute
    value below 2^53, which covers every count of tasks. *)
Module Float.

Fixpoint int_of_pos (p : positive) : int :=
  match p with
  | xH => 1%uint63
  | xO q => PrimInt63.lsl (int_of_pos q) 1
  | xI q => PrimInt63.lor (PrimInt63.lsl (int_of_pos q) 1) 1
  end.

(** [float(z)] *)
Definition of_Z (z : Z) : float :=
  match z with
  | Z0 => PrimFloat.zero
  | Zpos p => PrimFloat.of_uint63 (int_of_pos p)
  | Zneg p => PrimFloat.opp (PrimFloat.of_uint63 (int_of_pos p))
  end.

Fixpoint Z_of_int_bits (bits : nat) (i : int) : Z :=
  match bits with
  | O => 0
  | S n =>
    2 * Z_of_int_bits n (PrimInt63.lsr i 1)
    + (if PrimInt63.eqb (PrimInt63.land i 1) 1 then 1 else 0)
  end.

Definition Z_of_int (i : int) : Z := Z_of_int_bits 63 i.

(** The absolute value of a finite float is [m * 2^e] for the pair
    [(m, e)] returned. *)
Definition decompose (x : float) : Z * Z :=
  let '(fr, ex) := PrimFloat.frshiftexp (PrimFloat.abs x) in
  (Z_of_int (PrimFloat.normfr_mantissa fr), Z_of_int ex - 2101 - 53).

(** [int(x)]: truncation towards zero, for a finite [x]. *)
Definition trunc (x : float) : Z :=
  let '(m, e) := decompose x in
  let a := if decide (0 <= e) then m * 2 ^ e else m / 2 ^ (- e) in
  if PrimFloat.ltb x PrimFloat.zero then - a else a.

(** The decimal digits of a natural number. *)
Fixpoint digits_upto (fuel : nat) (n : Z) (acc : pystr) : pystr :=
  match fuel with
  | O => acc
  | S f =>
    let acc' := Z.to_N (48 + n mod 10) :: acc in
    if decide (n < 10) then acc' else digits_upto f (n / 10) acc'
  end.

Definition digits (n : Z) : pystr := digits_upto (S (Z.to_nat (Z.log2 n))) n [].

(** The number of tenths nearest to [m * 2^e], ties to even. *)
Definition nearest_tenths (m e : Z) : Z :=
  if decide (0 <= e) then 10 * m * 2 ^ e
  else
    let d := 2 ^ (- e) in
    let q := (10 * m) / d in
    let r := (10 * m) mod d in
    if decide (2 * r < d) then q
    else if decide (d < 2 * r) then q + 1
    else if Z.even q then q else q + 1.

(** [f"{x:.1f}"]: the correctly rounded decimal with one digit after the
    point. *)
Definition format_1f (x : float) : pystr :=
  if PrimFloat.is_nan x then str_of "nan"
  else
    let sign := if PrimFloat.get_sign x then str_of "-" else [] in
    if PrimFloat.is_infinity x then sign ++ str_of "inf"
    else
      let '(m, e) := decompose x in
      let t := nearest_tenths m e in
      sign ++ digits (t / 10) ++ str_of "." ++ digits (t mod 10).

End Float.

(** [a / b] on integers: true division. *)
Definition py_truediv (a b : Z) : outcome float :=
  if decide (b = 0) then Raise ZeroDivisionError
  else Ok (PrimFloat.div (Float.of_Z a) (Float.of_Z b)).

(** [s * n] on a string *)
Definition py_repeat (s : pystr) (n : Z) : pystr :=
  concat (replicate (Z.to_nat n) s).

(** ** [TodoApp.show_stats]

    The method prints; [StatsView] holds what it prints: either the notice
    that there is nothing to show, or the figures of the report. *)
Record Stats := mkStats {
  st_total : Z;
  st_done : Z;
  st_in_progress : Z;
  st_todo : Z;
  st_done_pct : pystr;          (* the text before the percent sign *)
  st_in_progress_pct : pystr;
  st_todo_pct : pystr;
  st_progress : float;
  st_filled : Z;
  st_bar : pystr;
  st_progress_pct : pystr
}.

Inductive StatsView :=
  | NoData
  | Figures (s : Stats).

Definition count_status (app : TodoApp) (s : Status) : Z :=
  Z.of_nat (length (filter (λ t, status t = s) (tasks app))).

(** [x / total * 100] shown with one decimal. *)
Definition percent (x total : Z) : outcome pystr :=
  q ← py_truediv x total;
  mret (Float.format_1f (PrimFloat.mul q (Float.of_Z 100))).

Definition show_stats (app : TodoApp) : outcome StatsView :=
  let total := Z.of_nat (length (tasks app)) in
  if decide (total = 0) then Ok NoData
  else
    let done := count_status app DONE in
    let in_progress := count_status app IN_PROGRESS in
    let todo := count_status app TODO in
    done_pct ← percent done total;
    in_progress_pct ← percent in_progress total;
    todo_pct ← percent todo total;
    progress ← (if decide (total > 0) then py_truediv done total
                else Ok PrimFloat.zero);
    let bar_length := 30 in
    let filled := Float.trunc (PrimFloat.mul (Float.of_Z bar_length) progress) in
    let bar := py_repeat (str_of "█") filled
               ++ py_repeat (str_of "░") (bar_length - filled) in
    mret (Figures (mkStats total done in_progress todo
                     done_pct in_progress_pct todo_pct
                     progress filled bar
                     (Float.format_1f (PrimFloat.mul progress (Float.of_Z 100))))).

(** ** [TodoApp.manage_tags]

    [all_tags] is a Python [set] of strings; [sorted] lists it in ascending
    order of [str]. *)
#[export] Instance str_le_dec : RelDecision str_le.
Proof. intros a b. unfold str_le. apply _. Defined.

Definition all_tags (app : TodoApp) : gset pystr :=
  foldl (λ acc task, acc ∪ list_to_set (tags task)) ∅ (tasks app).

Definition py_sorted (X : gset pystr) : list pystr :=
  merge_sort str_le (elements X).

(** [sum(1 for t in self.tasks if tag in t.tags)] *)
Definition tag_count (app : TodoApp) (tag : pystr) : Z :=
  Z.of_nat (length (filter (λ t, tag ∈ tags t) (tasks app))).

Inductive TagsView :=
  | NoTags
  | TagLines (lines : list (pystr * Z)).

Definition manage_tags (app : TodoApp) : TagsView :=
  let tags_found := all_tags app in
  if decide (tags_found = ∅) then NoTags
  else TagLines (map (λ tag, (tag, tag_count app tag)) (py_sorted tags_found)).

(** The pairs shown, none when no tag is in use. *)
Definition tag_lines (v : TagsView) : list (pystr * Z) :=
  match v with NoTags => [] | TagLines lines => lines end.

Definition sample_task (i : Z) (s : Status) (tg : list pystr) : Task :=
  mkTask i (str_of "t") [] MEDIUM s (str_of "01.01.2025 10:00") None tg.

(** ** Vocabulary of the statements, and sample data *)

(** A record decodes to a task when the constructor call raises nothing and
    its arguments have the annotated types. *)
Definition decodes_to (task_data : json) (task : Task) : Prop :=
  ∃ args, task_arguments task_data = Ok args ∧ Task_init args = Some task.

(** The counter after the loop has appended [ts]. *)
Definition bump (c : Z) (ts : list Task) : Z :=
  foldl (λ c t, Z.max c (id t + 1)) c ts.

Definition two_records_second_corrupt : json :=
  JArr [ to_dict (sample_task 1 TODO []);
         JObj [ (str_of "id", JInt 2);
                (str_of "title", JStr (str_of "b"));
                (str_of "description", JStr []);
                (str_of "priority", JStr (str_of "bogus"));
                (str_of "status", JStr (Status_value TODO));
                (str_of "created_at", JStr (str_of "01.01.2025 10:00")) ] ].

Definition two_tasks : TodoApp :=
  mkApp [ sample_task 1 DONE [str_of "work"; str_of "Work"];
          mkTask 4 (str_of "Email Alice") (str_of "soon") URGENT IN_PROGRESS
                 (str_of "02.03.2025 09:30") (Some (str_of "05.03.2025")) [] ] 7.

(** The largest id of a list of tasks. *)
Definition max_id (ts : list Task) : option Z :=
  match ts with
  | [] => None
  | t :: r => Some (foldl (λ m t', Z.max m (id t')) (id t) r)
  end.

Definition disk_ids_3_7 : Disk :=
  mkDisk (Some (Document (JArr [to_dict (sample_task 3 TODO []);
                                to_dict (sample_task 7 DONE []);
                                to_dict (sample_task 5 TODO [])]))) true.

(** The data model's invariant on ids: no id occurs twice, and every id in
    the store is below the counter. *)
Definition ids_fresh (app : TodoApp) : Prop :=
  NoDup (map id (tasks app)) ∧ Forall (λ t, id t < current_id app) (tasks app).

(** The ids handed out by the additions of a run, in order. *)
Definition added_ids (rs : list Report) : list Z :=
  omap (λ r, match r with Added t => Some (id t) | _ => None end) rs.

(** [i] is retired: below the counter and carried by no task. *)
Definition retired (app : TodoApp) (i : Z) : Prop :=
  i < current_id app ∧ Forall (λ t, id t ≠ i) (tasks app).

(** Each method, on each of its outcomes. *)
Inductive step_shape (app app' : TodoApp) : Report → Prop :=
  | shape_added t :
      id t = current_id app → tasks app' = tasks app ++ [t] →
      current_id app' = current_id app + 1 → step_shape app app' (Added t)
  | shape_deleted t l1 l2 :
      tasks app = l1 ++ t :: l2 → tasks app' = l1 ++ l2 →
      current_id app' = current_id app → step_shape app app' (Deleted t)
  | shape_same_ids r :
      map id (tasks app') = map id (tasks app) →
      current_id app' = current_id app →
      (∀ t, r ≠ Added t) → (∀ t, r ≠ Deleted t) → step_shape app app' r.

Definition sample_run : list command :=
  [ CmdAdd (str_of "01.01.2025 10:00") (str_of "a") [] (str_of "1") [] [];
    CmdAdd (str_of "01.01.2025 10:01") (str_of "b") [] (str_of "2") [] [];
    CmdDelete (str_of "2") (str_of "y");
    CmdAdd (str_of "01.01.2025 10:02") (str_of "c") [] [] [] [];
    CmdDelete (str_of "1") (str_of "Y");
    CmdAdd (str_of "01.01.2025 10:03") (str_of "d") [] [] [] [] ].

Definition three_tasks_one_done : TodoApp :=
  mkApp [sample_task 1 TODO []; sample_task 2 DONE []; sample_task 3 IN_PROGRESS []] 4.

Definition float_1_3 : float := PrimFloat.div (Float.of_Z 1) (Float.of_Z 3).

(** ** [TodoApp.search_tasks]

    [str.lower] follows the interpreter's Unicode case tables; the method is
    given for any such function [py_lower].  [choice_in] is the line read
    for the kind of search, [entry] the line read next (keyword, tag, or
    number of a status or priority). *)




Section Search.
Variable py_lower : pystr → pystr.



End Search.

(** ** [main]: start, the menu loop, and the two ways out of it

    Choice 9 saves and leaves, choice 0 leaves without saving.  The result
    is the disk left behind and the state the loop ended in. *)
Inductive exit_choice :=
  | SaveAndExit
  | ExitWithoutSaving.

Definition main (disk : Disk) (cs : list command) (e : exit_choice)
    : option (Disk * TodoApp) :=
  started ← TodoApp_init disk;
  let app := (run started.1 cs).1 in
  Some (match e with
        | SaveAndExit => (save_tasks app disk).1
        | ExitWithoutSaving => disk
        end, app).

(** ** Further vocabulary of the statements *)

(** The six entries a record must have. *)
Definition required_members (t : Task) : list (pystr * json) :=
  [ (str_of "id", JInt (id t));
    (str_of "title", JStr (title t));
    (str_of "description", JStr (description t));
    (str_of "priority", JStr (Priority_value (priority t)));
    (str_of "status", JStr (Status_value (status t)));
    (str_of "created_at", JStr (created_at t)) ].

Definition required_keys : list pystr :=
  [ str_of "id"; str_of "title"; str_of "description"; str_of "priority";
    str_of "status"; str_of "created_at" ].

(** Two tasks agree on the fields no method assigns to. *)
Definition same_fixed_fields (t t' : Task) : Prop :=
  id t = id t' ∧ created_at t = created_at t' ∧ priority t = priority t'
  ∧ due_date t = due_date t' ∧ tags t = tags t'.

(** The tasks a run has added and, respectively, deleted. *)
Definition added_tasks (rs : list Report) : list Task :=
  omap (λ r, match r with Added t => Some t | _ => None end) rs.
Definition deleted_tasks (rs : list Report) : list Task :=
  omap (λ r, match r with Deleted t => Some t | _ => None end) rs.

(** A report of a method that left the store as it was. *)
Definition no_change_report (r : Report) : bool :=
  match r with
  | TitleEmpty | NoTasks | AllDone | InvalidId | NotFound | Kept _ => true
  | Added _ | Updated _ | Completed _ | Deleted _ => false
  end.


(** Further sample data. *)
Definition surrogate_title : TodoApp :=
  mkApp [mkTask 1 [55296%N] [] MEDIUM TODO (str_of "01.01.2025 10:00") None []] 2.

Definition newest_deleted : TodoApp :=
  (run (mkApp [] 1)
       [ CmdAdd (str_of "01.01.2025 10:00") (str_of "a") [] [] [] [];
         CmdAdd (str_of "01.01.2025 10:01") (str_of "b") [] [] [] [];
         CmdDelete (str_of "2") (str_of "y") ]).1.

Definition one_cancelled : TodoApp :=
  mkApp [sample_task 1 CANCELLED []; sample_task 2 DONE []] 3.

(** * Properties *)

(** ** The Python primitives on examples *)

Example str_of_ascii : str_of "a,b" = [97; 44; 98]%N.
Proof. reflexivity. Qed.

Example str_of_cyrillic : str_of "Низкий" = [1053; 1080; 1079; 1082; 1080; 1081]%N.
Proof. reflexivity. Qed.

Example py_int_examples :
  py_int (str_of " 12 ") = Some 12 ∧ py_int (str_of "-0") = Some 0 ∧
  py_int (str_of "1_0") = Some 10 ∧ py_int (str_of "1__0") = None ∧
  py_int (str_of "+ 1") = None ∧ py_int (str_of "") = None ∧
  py_int (str_of "abc") = None ∧ py_int [1633%N] = Some 1.
Proof. repeat split; reflexivity. Qed.

Example py_strip_examples :
  py_strip (str_of "  a b  ") = str_of "a b" ∧ py_strip (str_of "   ") = [] ∧
  py_strip [160; 97; 12288]%N = [97%N].
Proof. repeat split; reflexivity. Qed.

Example format_examples :
  Float.format_1f (PrimFloat.div (Float.of_Z 1) (Float.of_Z 4)) = str_of "0.2" ∧
  Float.format_1f (PrimFloat.div (Float.of_Z 3) (Float.of_Z 4)) = str_of "0.8" ∧
  Float.format_1f (Float.of_Z 100) = str_of "100.0" ∧
  Float.format_1f (Float.of_Z 0) = str_of "0.0" ∧
  Float.trunc (PrimFloat.div (Float.of_Z 29) (Float.of_Z 3)) = 9.
Proof. repeat split; vm_compute; reflexivity. Qed.

Example manage_tags_example :
  manage_tags (mkApp [sample_task 1 TODO [str_of "work"; str_of "Work"; str_of "work"];
                      sample_task 2 TODO [str_of "home"; str_of "work"]] 3)
  = TagLines [(str_of "Work", 1); (str_of "home", 1); (str_of "work", 2)].
Proof. vm_compute. reflexivity. Qed.


(** ** Loading and saving *)

Lemma Priority_call_value (p : Priority) :
  Priority_call (JStr (Priority_value p)) = Ok p.
Proof. destruct p; vm_compute; reflexivity. Qed.

Lemma Status_call_value (s : Status) :
  Status_call (JStr (Status_value s)) = Ok s.
Proof. destruct s; vm_compute; reflexivity. Qed.

Lemma mapM_as_str (l : list pystr) : mapM as_str (map JStr l) = Some l.
Proof. induction l as [|x l IH]; simpl; [done|]. by rewrite IH. Qed.

Lemma to_dict_decodes (t : Task) : decodes_to (to_dict t) t.
Proof.
  destruct t as [i ti de p s cr du tg].
  exists (mkArgs (JInt i) (JStr ti) (JStr de) p s (JStr cr)
                 (match du with Some d => JStr d | None => JNull end)
                 (JArr (map JStr tg))).
  split.
  - destruct p, s; vm_compute; reflexivity.
  - unfold Task_init; simpl. rewrite mapM_as_str. by destruct du.
Qed.

Lemma load_append_eq app t :
  load_append app t = mkApp (tasks app ++ [t]) (Z.max (current_id app) (id t + 1)).
Proof.
  unfold load_append; simpl. case_decide; f_equal; lia.
Qed.

Lemma bump_ge c ts : c ≤ bump c ts.
Proof.
  revert c; induction ts as [|t ts IH]; intros c; simpl; [lia|].
  specialize (IH (Z.max c (id t + 1))). lia.
Qed.

Lemma bump_above c ts : Forall (λ t, id t < bump c ts) ts.
Proof.
  revert c; induction ts as [|t ts IH]; intros c; simpl; constructor.
  - pose proof (bump_ge (Z.max c (id t + 1)) ts). lia.
  - apply IH.
Qed.

(** The loop over records that all decode runs to its end. *)
Lemma load_loop_decoded data ts app :
  Forall2 decodes_to data ts →
  load_loop data app
  = Some (mkApp (tasks app ++ ts) (bump (current_id app) ts), None).
Proof.
  intros H; revert app.
  induction H as [|j t data ts (a & Ha & Hi) _ IH]; intros app; simpl.
  - rewrite app_nil_r. by destruct app.
  - rewrite Ha, Hi, IH, load_append_eq; simpl.
    by rewrite <- app_assoc.
Qed.

(** The loop stops at the first record whose decoding raises, and keeps
    what it appended before. *)
Lemma load_loop_raises pre ts bad e post app :
  Forall2 decodes_to pre ts →
  task_arguments bad = Raise e →
  load_loop (pre ++ bad :: post) app
  = Some (mkApp (tasks app ++ ts) (bump (current_id app) ts), Some e).
Proof.
  intros H Hbad; revert app.
  induction H as [|j t data ts (a & Ha & Hi) _ IH]; intros app; simpl.
  - rewrite Hbad, app_nil_r. by destruct app.
  - rewrite Ha, Hi, IH, load_append_eq; simpl.
    by rewrite <- app_assoc.
Qed.

(** Whatever the loop returns extends the list it started from, and the
    counter follows. *)
Lemma load_loop_result data app app' r :
  load_loop data app = Some (app', r) →
  ∃ ts, tasks app' = tasks app ++ ts
        ∧ current_id app' = bump (current_id app) ts
        ∧ (r = None → Forall2 decodes_to data ts).
Proof.
  revert app; induction data as [|j data IH]; intros app; simpl.
  - intros [= <- <-]. exists []. rewrite app_nil_r. by repeat split.
  - destruct (task_arguments j) as [a|e] eqn:Ha.
    + destruct (Task_init a) as [t|] eqn:Hi; [|done].
      intros H. apply IH in H as (ts & Ht & Hc & Hr).
      exists (t :: ts). rewrite load_append_eq in Ht, Hc; simpl in *.
      rewrite <- app_assoc in Ht. repeat split; [done..|].
      intros Hn. constructor; [by exists a | by apply Hr].
    + intros [= <- <-]. exists []. rewrite app_nil_r. by repeat split.
Qed.

Lemma load_partial_example :
  TodoApp_init (mkDisk (Some (Document two_records_second_corrupt)) true)
  = Some (mkApp [sample_task 1 TODO []] 2, Some ValueError).
Proof. vm_compute. reflexivity. Qed.

(** C1, as stated, fails: a file whose second record carries an unknown
    priority label leaves the first record's task in the store. *)
Lemma load_failure_store_not_empty :
  ∃ app' e,
    TodoApp_init (mkDisk (Some (Document two_records_second_corrupt)) true)
    = Some (app', Some e)
    ∧ tasks app' ≠ [].
Proof.
  exists (mkApp [sample_task 1 TODO []] 2), ValueError.
  split; [apply load_partial_example | done].
Qed.

(** C1 (amended): a failure while loading is caught and the application
    starts.  With malformed JSON the store is empty.  When the decoding of
    a record raises, the store holds exactly the tasks of the records before
    it, the counter is past their ids, and the records after it are not
    loaded. *)
Theorem load_failure_keeps_decoded_prefix :
  (∀ w, TodoApp_init (mkDisk (Some Malformed) w)
        = Some (mkApp [] 1, Some JSONDecodeError))
  ∧ (∀ disk pre ts bad e post,
       file disk = Some (Document (JArr (pre ++ bad :: post))) →
       Forall2 decodes_to pre ts →
       task_arguments bad = Raise e →
       TodoApp_init disk = Some (mkApp ts (bump 1 ts), Some e)).
Proof.
  split; [done|].
  intros disk pre ts bad e post Hf Hpre Hbad.
  unfold TodoApp_init, load_tasks. rewrite Hf; simpl.
  by rewrite (load_loop_raises pre ts bad e post _ Hpre Hbad).
Qed.

Lemma load_failure_keeps_decoded_prefix_witness :
  TodoApp_init (mkDisk (Some (Document two_records_second_corrupt)) false)
  = Some (mkApp [sample_task 1 TODO []] 2, Some ValueError).
Proof.
  refine (proj2 load_failure_keeps_decoded_prefix
            (mkDisk (Some (Document two_records_second_corrupt)) false)
            [to_dict (sample_task 1 TODO [])] [sample_task 1 TODO []]
            _ ValueError [] _ _ _).
  - reflexivity.
  - constructor; [apply to_dict_decodes | constructor].
  - vm_compute. reflexivity.
Defined.

(** C2, as stated, fails: a task whose title is a lone surrogate has
    recognized labels, yet saving it leaves a file that is not JSON, and
    the next start loads nothing. *)
Lemma save_then_load_loses_surrogate_title :
  ∃ app' r,
    TodoApp_init (save_tasks surrogate_title (mkDisk None true)).1
    = Some (app', r)
    ∧ tasks app' ≠ tasks surrogate_title.
Proof.
  exists (mkApp [] 1), (Some JSONDecodeError). split; [|done].
  vm_compute. reflexivity.
Qed.

(** C2 (amended): when the file can be written and every string of the
    store can be encoded in UTF-8, saving the store and starting the
    application on the file written gives back the same list of tasks,
    field by field and in order. *)
Theorem load_save_roundtrip (app : TodoApp) (disk : Disk) :
  writable disk = true →
  forallb task_encodable (tasks app) = true →
  ∃ app', TodoApp_init (save_tasks app disk).1 = Some (app', None)
          ∧ tasks app' = tasks app.
Proof.
  intros Hw He. unfold save_tasks. rewrite Hw, He; simpl.
  exists (mkApp (tasks app) (bump 1 (tasks app))). split; [|done].
  unfold TodoApp_init, load_tasks; simpl.
  rewrite (load_loop_decoded _ (tasks app)); [done|].
  apply Forall2_fmap_l, Forall_Forall2_diag, Forall_forall.
  intros t _. apply to_dict_decodes.
Qed.

Lemma load_save_roundtrip_witness :
  ∃ app', TodoApp_init (save_tasks two_tasks (mkDisk None true)).1
          = Some (app', None)
          ∧ tasks app' = tasks two_tasks.
Proof.
  apply (load_save_roundtrip two_tasks (mkDisk None true));
    vm_compute; reflexivity.
Defined.

Lemma bump_foldl_max r c m :
  bump (Z.max c (m + 1)) r = Z.max c (foldl (λ m t', Z.max m (id t')) m r + 1).
Proof.
  revert c m; induction r as [|x r IH]; intros c m; simpl; [done|].
  rewrite <- IH. unfold bump; simpl. f_equal. lia.
Qed.

Lemma foldl_max_ge r m : m ≤ foldl (λ m t', Z.max m (id t')) m r.
Proof.
  revert m; induction r as [|x r IH]; intros m; simpl; [lia|].
  specialize (IH (Z.max m (id x))). lia.
Qed.

Lemma bump_max_id c ts :
  bump c ts = match max_id ts with Some m => Z.max c (m + 1) | None => c end.
Proof. destruct ts as [|t r]; simpl; [done|]. apply bump_foldl_max. Qed.

Lemma max_id_upper ts m : max_id ts = Some m → Forall (λ t, id t ≤ m) ts.
Proof.
  destruct ts as [|t r]; [done|]. intros [= <-].
  pose proof (bump_above (id t) (t :: r)) as H.
  rewrite bump_max_id in H. simpl in H.
  pose proof (foldl_max_ge r (id t)).
  eapply Forall_impl; [exact H|]. simpl. intros x Hx.
  revert Hx. set (M := foldl _ _ _) in *. lia.
Qed.

Lemma max_id_elem ts m : max_id ts = Some m → ∃ t, t ∈ ts ∧ id t = m.
Proof.
  destruct ts as [|t r]; [done|]. intros [= <-].
  assert (∀ r t0 (l : list Task), t0 ∈ l → (∀ x, x ∈ r → x ∈ l) →
            ∃ t, t ∈ l ∧ id t = foldl (λ m t', Z.max m (id t')) (id t0) r) as G.
  { clear. induction r as [|x r IH]; intros t0 l H0 Hr; simpl; [eauto|].
    destruct (Z.max_spec (id t0) (id x)) as [[_ ->]|[_ ->]].
    - apply IH; [apply Hr; left | intros; apply Hr; by right].
    - apply IH; [done | intros; apply Hr; by right]. }
  apply G; [left | intros; by right].
Qed.

(** Whatever the file, the counter after loading is past every loaded id. *)
Lemma init_result disk app' r :
  TodoApp_init disk = Some (app', r) →
  current_id app' = bump 1 (tasks app').
Proof.
  unfold TodoApp_init, load_tasks.
  destruct (file disk) as [[| |data]|]; try (intros [= <- <-]; done).
  destruct (py_iter data) as [items|e]; [|intros [= <- <-]; done].
  intros H. apply load_loop_result in H as (ts & Ht & Hc & _).
  simpl in *. by rewrite Ht, Hc.
Qed.

(** C6: when loading ends without an exception and the ids are those of the
    data model (not negative), the counter is one more than the largest
    loaded id, or 1 when nothing was loaded, and the next task added gets
    that id. *)
Theorem next_id_after_load disk app' :
  TodoApp_init disk = Some (app', None) →
  Forall (λ t, 0 ≤ id t) (tasks app') →
  current_id app' = match max_id (tasks app') with Some m => 1 + m | None => 1 end
  ∧ ∀ now title_in description_in priority_in due_date_in tags_in,
      py_strip title_in ≠ [] →
      ∃ task,
        add_task app' now title_in description_in priority_in due_date_in tags_in
        = (mkApp (tasks app' ++ [task]) (current_id app' + 1), Added task)
        ∧ id task = current_id app'.
Proof.
  intros Hinit Hpos. split.
  - rewrite (init_result _ _ _ Hinit), bump_max_id.
    destruct (max_id (tasks app')) as [m|] eqn:Hm; [|done].
    apply max_id_elem in Hm as (t & Ht & <-).
    rewrite Forall_forall in Hpos. specialize (Hpos t Ht). lia.
  - intros now ti de pr du tg Hti. unfold add_task.
    rewrite decide_False by done. eauto.
Qed.

Lemma next_id_after_load_witness :
  current_id (mkApp [sample_task 3 TODO []; sample_task 7 DONE [];
                     sample_task 5 TODO []] 8) = 1 + 7.
Proof.
  refine (proj1 (next_id_after_load disk_ids_3_7
            (mkApp [sample_task 3 TODO []; sample_task 7 DONE [];
                    sample_task 5 TODO []] 8) _ _)).
  - vm_compute. reflexivity.
  - repeat constructor; vm_compute; discriminate.
Defined.

(** ** Adding *)

Lemma py_lstrip_nil s : py_lstrip s = [] ↔ Forall (λ c, py_isspace c = true) s.
Proof.
  induction s as [|c s IH]; simpl; [by split|].
  destruct (py_isspace c) eqn:Hc.
  - rewrite IH. split; [by constructor | by inversion 1].
  - split; [done | inversion 1; congruence].
Qed.

Lemma py_lstrip_head s c r : py_lstrip s = c :: r → py_isspace c = false.
Proof.
  induction s as [|x s IH]; simpl; [done|].
  destruct (py_isspace x) eqn:Hx; [done | by intros [= <- _]].
Qed.

(** A string is empty after trimming exactly when it is empty or made of
    whitespace only. *)
Lemma py_strip_nil s : py_strip s = [] ↔ Forall (λ c, py_isspace c = true) s.
Proof.
  unfold py_strip, py_rstrip. split.
  - intros H. apply (f_equal (@rev N)) in H. rewrite rev_involutive in H.
    simpl in H. apply py_lstrip_nil in H.
    destruct (py_lstrip s) as [|c r] eqn:Hs; [by apply py_lstrip_nil|].
    apply py_lstrip_head in Hs.
    assert (c ∈ rev (c :: r)) as Hin
      by (apply list_elem_of_In; apply -> in_rev; by left).
    rewrite Forall_forall in H. apply H in Hin. congruence.
  - intros H. apply py_lstrip_nil in H. by rewrite H.
Qed.

(** C3: when the title is empty after trimming, [add_task] reports the empty
    title and returns the application unchanged: same tasks, same counter. *)
Theorem add_blank_title_rejected app now title_in description_in priority_in
    due_date_in tags_in :
  py_strip title_in = [] →
  add_task app now title_in description_in priority_in due_date_in tags_in
  = (app, TitleEmpty).
Proof. intros H. unfold add_task. by rewrite decide_True. Qed.

Lemma add_blank_title_rejected_witness :
  add_task two_tasks (str_of "03.03.2025 12:00") (str_of "   ") (str_of "x")
           (str_of "1") [] (str_of "a,b")
  = (two_tasks, TitleEmpty).
Proof. apply add_blank_title_rejected. vm_compute. reflexivity. Defined.

(** ** Identifiers over a run of commands *)

Lemma find_task_None app i :
  find_task app i = None ↔ Forall (λ t, id t ≠ i) (tasks app).
Proof. unfold find_task. by rewrite list_find_None. Qed.

Lemma find_task_Some app k i t :
  find_task app k = Some (i, t) → tasks app !! i = Some t ∧ id t = k.
Proof. unfold find_task. intros H. apply list_find_Some in H. tauto. Qed.

Lemma fmap_id_insert (l : list Task) i t t' :
  l !! i = Some t → id t' = id t → map id (<[i := t']> l) = map id l.
Proof.
  intros Hl He. change (map id) with (fmap (M:=list) id).
  rewrite list_fmap_insert, He. apply list_insert_id.
  by rewrite list_lookup_fmap, Hl.
Qed.

Lemma edit_fields_id t a b c : id (edit_fields t a b c) = id t.
Proof. unfold edit_fields. by repeat case_decide. Qed.

Lemma py_remove_Some x l r :
  py_remove x l = Some r → ∃ l1 l2, l = l1 ++ x :: l2 ∧ r = l1 ++ l2.
Proof.
  revert r; induction l as [|y l IH]; intros r; simpl; [done|].
  case_decide as Hy.
  - intros [= <-]. subst y. by exists [], l.
  - destruct (py_remove x l) as [r'|]; [|done]. intros [= <-].
    destruct (IH r' eq_refl) as (l1 & l2 & -> & ->).
    by exists (y :: l1), l2.
Qed.

Lemma py_remove_elem x l : x ∈ l → is_Some (py_remove x l).
Proof.
  induction l as [|y l IH]; simpl; [by inversion 1|].
  intros Hin. case_decide as Hy; [eauto|].
  apply elem_of_cons in Hin as [->|Hin]; [done|].
  destruct (IH Hin) as [r ->]. eauto.
Qed.

Ltac same_ids := by apply shape_same_ids.

Lemma step_has_shape app c :
  step_shape app (step app c).1 (step app c).2.
Proof.
  destruct c as [now ti de pr du tg|k ti de st|k|k y]; simpl.
  - unfold add_task. case_decide; simpl.
    + same_ids.
    + by apply shape_added.
  - unfold edit_task. destruct (tasks app) as [|t0 l0] eqn:Hl;
      [same_ids|].
    destruct (py_int k) as [n|]; [|same_ids].
    destruct (find_task app n) as [[i t]|] eqn:Hf; [|same_ids].
    apply find_task_Some in Hf as [Hi _]. rewrite Hl in Hi.
    apply shape_same_ids; simpl; try done.
    rewrite Hl. eapply fmap_id_insert; [done | apply edit_fields_id].
  - unfold complete_task. destruct (tasks app) as [|t0 l0] eqn:Hl;
      [same_ids|].
    destruct (filter _ _) as [|a0 f0]; [same_ids|].
    destruct (py_int k) as [n|]; [|same_ids].
    destruct (find_task app n) as [[i t]|] eqn:Hf; [|same_ids].
    apply find_task_Some in Hf as [Hi _]. rewrite Hl in Hi.
    apply shape_same_ids; simpl; try done.
    rewrite Hl. by eapply fmap_id_insert.
  - unfold delete_task. destruct (tasks app) as [|t0 l0] eqn:Hl;
      [same_ids|].
    destruct (py_int k) as [n|]; [|same_ids].
    destruct (find_task app n) as [[i t]|] eqn:Hf; [|same_ids].
    destruct (lower_is_y y); [|same_ids].
    destruct (py_remove t (t0 :: l0)) as [r|] eqn:Hr; [|same_ids].
    apply py_remove_Some in Hr as (l1 & l2 & Hl' & ->).
    eapply shape_deleted; simpl; [by rewrite Hl | done..].
Qed.

Lemma run_cons app c rest :
  run app (c :: rest)
  = ((run (step app c).1 rest).1, (step app c).2 :: (run (step app c).1 rest).2).
Proof. simpl. destruct (step app c) as [a r]; simpl. by destruct (run a rest). Qed.

Lemma run_app app cs1 cs2 :
  run app (cs1 ++ cs2)
  = ((run (run app cs1).1 cs2).1, (run app cs1).2 ++ (run (run app cs1).1 cs2).2).
Proof.
  revert app; induction cs1 as [|c cs1 IH]; intros app.
  - simpl. by destruct (run app cs2).
  - rewrite <- app_comm_cons, !run_cons, IH. done.
Qed.

Lemma step_ids_fresh app c : ids_fresh app → ids_fresh (step app c).1.
Proof.
  intros [Hnd Hlt]. unfold ids_fresh.
  destruct (step_has_shape app c) as [t Ht Hts Hc|t l1 l2 Hl Hts Hc|r Hm Hc _ _].
  - rewrite Hts, Hc, map_app; simpl. split.
    + apply NoDup_app. repeat split; [done| |apply NoDup_singleton].
      intros i Hi Hi'. apply list_elem_of_singleton in Hi'. subst i.
      apply (list_elem_of_fmap_1 id) in Hi as (x & Hx & Hin).
      rewrite Forall_forall in Hlt. specialize (Hlt x Hin). lia.
    + apply Forall_app. split.
      * eapply Forall_impl; [done|]. simpl; intros; lia.
      * repeat constructor. lia.
  - rewrite Hts, Hc. rewrite Hl in Hnd, Hlt.
    rewrite map_app in *. simpl in Hnd.
    apply NoDup_app in Hnd as (H1 & H2 & H3). apply NoDup_cons in H3 as [_ H3].
    apply Forall_app in Hlt as [Hl1 Hl2]. apply Forall_cons in Hl2 as [_ Hl2].
    split; [|by apply Forall_app].
    apply NoDup_app. repeat split; [done| |done].
    intros i Hi Hi'. apply (H2 i Hi). by right.
  - rewrite Hm, Hc. split; [done|].
    apply (Forall_fmap id (λ i, i < current_id app)).
    change (fmap id) with (map id). rewrite Hm.
    by apply (Forall_fmap id (λ i, i < current_id app)).
Qed.

Lemma run_ids_fresh app cs : ids_fresh app → ids_fresh (run app cs).1.
Proof.
  revert app; induction cs as [|c cs IH]; intros app H; [done|].
  rewrite run_cons; simpl. by apply IH, step_ids_fresh.
Qed.

Lemma step_counter_mono app c : current_id app ≤ current_id (step app c).1.
Proof.
  destruct (step_has_shape app c) as [t Ht Hts Hc|t l1 l2 Hl Hts Hc|r Hm Hc _ _]; lia.
Qed.

(** The additions of a run hand out increasing ids, none below the counter
    the run started with. *)
Lemma run_added_sorted app cs :
  StronglySorted Z.lt (added_ids (run app cs).2)
  ∧ Forall (λ i, current_id app ≤ i) (added_ids (run app cs).2).
Proof.
  revert app; induction cs as [|c cs IH]; intros app.
  - simpl. split; constructor.
  - rewrite run_cons; simpl. destruct (IH (step app c).1) as [Hs Hge].
    pose proof (step_counter_mono app c) as Hm.
    assert (Forall (λ i, current_id app ≤ i) (added_ids (run (step app c).1 cs).2))
      as Hge' by (eapply Forall_impl; [exact Hge|]; simpl; intros; lia).
    unfold added_ids at 1 3; simpl. fold (added_ids (run (step app c).1 cs).2).
    destruct (step_has_shape app c) as [t Ht Hts Hc|t l1 l2 Hl Hts Hc|r Hmap Hc Ha Hd].
    + simpl. split.
      * constructor; [done|]. eapply Forall_impl; [exact Hge|]. simpl; intros; lia.
      * constructor; [lia | done].
    + done.
    + destruct r; try done. by destruct (Ha task).
Qed.

Lemma step_retired app c i : retired app i → retired (step app c).1 i.
Proof.
  intros [Hlt Hne]. unfold retired.
  destruct (step_has_shape app c) as [t Ht Hts Hc|t l1 l2 Hl Hts Hc|r Hm Hc _ _].
  - rewrite Hts, Hc. split; [lia|]. apply Forall_app. split; [done|].
    repeat constructor. lia.
  - rewrite Hts, Hc. split; [done|]. rewrite Hl in Hne.
    apply Forall_app in Hne as [H1 H2]. apply Forall_cons in H2 as [_ H2].
    by apply Forall_app.
  - rewrite Hc. split; [done|].
    apply (Forall_fmap id (λ j, j ≠ i)).
    change (fmap id) with (map id). rewrite Hm.
    by apply (Forall_fmap id (λ j, j ≠ i)).
Qed.

Lemma run_retired app cs i : retired app i → retired (run app cs).1 i.
Proof.
  revert app; induction cs as [|c cs IH]; intros app H; [done|].
  rewrite run_cons; simpl. by apply IH, step_retired.
Qed.

Lemma delete_retires app k y t :
  ids_fresh app → (delete_task app k y).2 = Deleted t →
  retired (delete_task app k y).1 (id t).
Proof.
  intros [Hnd Hlt] Hr.
  pose proof (step_has_shape app (CmdDelete k y)) as Hs. simpl in Hs.
  rewrite Hr in Hs. unfold retired.
  inversion Hs as [|t' l1 l2 Hl Hts Hc|r Hm Hc _ Hd]; subst.
  - rewrite Hts, Hc. rewrite Hl in Hnd, Hlt.
    split.
    + apply Forall_app in Hlt as [_ H2]. by apply Forall_cons in H2 as [H2 _].
    + rewrite map_app in Hnd; simpl in Hnd.
      apply NoDup_app in Hnd as (_ & H2 & H3). apply NoDup_cons in H3 as [H3 _].
      apply Forall_app. split; apply Forall_forall; intros x Hx Heq.
      * apply (H2 (id x)); [by apply list_elem_of_fmap_2 | rewrite Heq; by left].
      * apply H3. rewrite <- Heq. by apply list_elem_of_fmap_2.
  - by destruct (Hd t).
Qed.

Lemma ids_fresh_new : ids_fresh (mkApp [] 1).
Proof. split; constructor. Qed.

(** A loaded store satisfies the invariant as soon as the file repeats no
    id. *)
Lemma ids_fresh_loaded disk app' r :
  TodoApp_init disk = Some (app', r) →
  NoDup (map id (tasks app')) → ids_fresh app'.
Proof.
  intros H Hnd. split; [done|].
  rewrite (init_result _ _ _ H). apply bump_above.
Qed.

(** C4: from a store whose ids are distinct and below the counter (the new
    store, and every store reached from it), over any sequence of additions,
    edits, completions and deletions: the ids handed out by the additions
    are strictly increasing, hence distinct; the ids in the store stay
    distinct; and once a deletion has removed a task, looking up its id
    fails right away and after every later command, and no later addition
    hands that id out again. *)
Theorem ids_increasing_never_reused app cs :
  ids_fresh app →
  StronglySorted Z.lt (added_ids (run app cs).2)
  ∧ NoDup (added_ids (run app cs).2)
  ∧ ids_fresh (run app cs).1
  ∧ ∀ pre k y post t,
      cs = pre ++ CmdDelete k y :: post →
      (delete_task (run app pre).1 k y).2 = Deleted t →
      let app_d := (delete_task (run app pre).1 k y).1 in
      find_task app_d (id t) = None
      ∧ (id t ∉ added_ids (run app_d post).2)
      ∧ find_task (run app_d post).1 (id t) = None.
Proof.
  intros Hf. destruct (run_added_sorted app cs) as [Hs _].
  split; [done|]. split.
  { clear -Hs. induction Hs as [|i l _ IH Hi]; constructor; [|done].
    intros Hin. rewrite Forall_forall in Hi. specialize (Hi i Hin). lia. }
  split; [by apply run_ids_fresh|].
  intros pre k y post t -> Hd app_d.
  assert (retired app_d (id t)) as Hret
    by (apply delete_retires; [by apply run_ids_fresh | done]).
  split; [apply find_task_None, Hret|]. split.
  - destruct (run_added_sorted app_d post) as [_ Hge].
    intros Hin. rewrite Forall_forall in Hge. specialize (Hge _ Hin).
    destruct Hret. lia.
  - apply find_task_None. by apply run_retired.
Qed.

Example sample_run_ids : added_ids (run (mkApp [] 1) sample_run).2 = [1; 2; 3; 4].
Proof. vm_compute. reflexivity. Qed.

Lemma ids_increasing_never_reused_witness :
  StronglySorted Z.lt (added_ids (run (mkApp [] 1) sample_run).2)
  ∧ NoDup (added_ids (run (mkApp [] 1) sample_run).2)
  ∧ ids_fresh (run (mkApp [] 1) sample_run).1
  ∧ ∀ pre k y post t,
      sample_run = pre ++ CmdDelete k y :: post →
      (delete_task (run (mkApp [] 1) pre).1 k y).2 = Deleted t →
      let app_d := (delete_task (run (mkApp [] 1) pre).1 k y).1 in
      find_task app_d (id t) = None
      ∧ (id t ∉ added_ids (run app_d post).2)
      ∧ find_task (run app_d post).1 (id t) = None.
Proof.
  apply (ids_increasing_never_reused (mkApp [] 1) sample_run).
  split; constructor.
Defined.

(** ** Editing *)

Lemma choose_status_blank current status_in :
  py_strip status_in = [] → choose_status current status_in = current.
Proof. intros H. unfold choose_status. by rewrite decide_True. Qed.





(** C10, the failing input: the entry [0] for the status is outside the menu
    1 to 4, yet it is not ignored: index [-1] selects the last member, and
    the task becomes cancelled. *)
Lemma edit_status_zero_sets_cancelled :
  edit_task (mkApp [sample_task 1 TODO []] 2) (str_of "1") [] [] (str_of "0")
  = (mkApp [sample_task 1 CANCELLED []] 2, Updated (sample_task 1 CANCELLED [])).
Proof. vm_compute. reflexivity. Qed.

(** The entries 0, -1, -2 and -3 select a status from the end of the list. *)
Lemma choose_status_wraps current status_in n :
  py_int (py_strip status_in) = Some n → -3 ≤ n ≤ 0 →
  Some (choose_status current status_in) = list_Status !! Z.to_nat (n + 3).
Proof.
  intros Hn Hr. unfold choose_status. rewrite Hn.
  case_decide as He; [by rewrite He in Hn|].
  assert (n = 0 ∨ n = -1 ∨ n = -2 ∨ n = -3) as [->|[->|[->| ->]]] by lia;
    reflexivity.
Qed.

(** ** Statistics *)

Lemma percent_ok x total : total ≠ 0 → ∃ s, percent x total = Ok s.
Proof.
  intros H. unfold percent, py_truediv. rewrite decide_False by done.
  eexists. reflexivity.
Qed.

(** C5, as stated, fails: on the empty store there are no figures at all,
    so no total, percentage or progress is reported. *)
Lemma show_stats_empty_no_figures :
  ¬ ∃ s, show_stats (mkApp [] 1) = Ok (Figures s).
Proof. intros [s H]. vm_compute in H. discriminate. Qed.

(** C5 (amended): on the empty store [show_stats] gives the notice that
    there is nothing to show, computing no figure; and on no store does it
    raise, so no division by zero occurs. *)
Theorem show_stats_empty_reports_no_data :
  (∀ c, show_stats (mkApp [] c) = Ok NoData)
  ∧ (∀ app, ∃ v, show_stats app = Ok v).
Proof.
  split; [done|]. intros app. unfold show_stats.
  set (total := Z.of_nat (length (tasks app))).
  case_decide as Ht; [eauto|].
  destruct (percent_ok (count_status app DONE) total Ht) as [p1 ->].
  destruct (percent_ok (count_status app IN_PROGRESS) total Ht) as [p2 ->].
  destruct (percent_ok (count_status app TODO) total Ht) as [p3 ->].
  assert (total > 0) as Hpos by lia.
  rewrite (decide_True (P := total > 0)) by done.
  unfold py_truediv. rewrite decide_False by done.
  eexists. reflexivity.
Qed.

(** C9, as stated, fails: with one task done out of three the bar has 10
    filled cells, not 9. *)
Lemma show_stats_third_not_nine_cells :
  ¬ ∃ s, show_stats three_tasks_one_done = Ok (Figures s) ∧ st_filled s = 9.
Proof.
  intros (s & H & H9). vm_compute in H.
  injection H as <-. simpl in H9. discriminate.
Qed.

(** C9 (amended): with three tasks of which exactly one is done, the done
    percentage is shown as 33.3, the progress is the float nearest to one
    third (between 0.333 and 0.334), and the bar has
    [int(30 * progress) = 10] filled cells followed by 20 unfilled ones. *)
Theorem show_stats_one_of_three app :
  length (tasks app) = 3%nat →
  count_status app DONE = 1 →
  ∃ s, show_stats app = Ok (Figures s)
       ∧ st_total s = 3 ∧ st_done s = 1
       ∧ st_done_pct s = str_of "33.3"
       ∧ st_progress s = float_1_3
       ∧ PrimFloat.ltb (PrimFloat.div (Float.of_Z 333) (Float.of_Z 1000))
                       (st_progress s) = true
       ∧ PrimFloat.ltb (st_progress s)
                       (PrimFloat.div (Float.of_Z 334) (Float.of_Z 1000)) = true
       ∧ st_filled s = 10
       ∧ st_bar s = py_repeat (str_of "█") 10 ++ py_repeat (str_of "░") 20.
Proof.
  intros Hlen Hdone. unfold show_stats. rewrite Hlen, Hdone.
  change (Z.of_nat 3) with 3.
  rewrite decide_False by done.
  assert (percent 1 3 = Ok (str_of "33.3")) as -> by (vm_compute; reflexivity).
  destruct (percent_ok (count_status app IN_PROGRESS) 3 ltac:(done)) as [p2 ->].
  destruct (percent_ok (count_status app TODO) 3 ltac:(done)) as [p3 ->].
  rewrite (decide_True (P := 3 > 0)) by done.
  assert (py_truediv 1 3 = Ok float_1_3) as -> by reflexivity.
  eexists. split; [reflexivity|]. simpl.
  repeat split; vm_compute; reflexivity.
Qed.

Lemma show_stats_one_of_three_witness :
  ∃ s, show_stats three_tasks_one_done = Ok (Figures s)
       ∧ st_total s = 3 ∧ st_done s = 1
       ∧ st_done_pct s = str_of "33.3"
       ∧ st_progress s = float_1_3
       ∧ PrimFloat.ltb (PrimFloat.div (Float.of_Z 333) (Float.of_Z 1000))
                       (st_progress s) = true
       ∧ PrimFloat.ltb (st_progress s)
                       (PrimFloat.div (Float.of_Z 334) (Float.of_Z 1000)) = true
       ∧ st_filled s = 10
       ∧ st_bar s = py_repeat (str_of "█") 10 ++ py_repeat (str_of "░") 20.
Proof.
  apply (show_stats_one_of_three three_tasks_one_done); vm_compute; reflexivity.
Defined.

(** ** Tags *)

#[export] Instance str_le_total : Total str_le.
Proof.
  intros a. unfold str_le. induction a as [|x a IH]; intros [|y b]; simpl; auto.
  destruct (N.ltb_spec x y), (N.ltb_spec y x); auto; lia.
Qed.

#[export] Instance str_le_trans : Transitive str_le.
Proof.
  intros a. unfold str_le.
  induction a as [|x a IH]; intros [|y b] [|z c]; simpl; auto; try done.
  destruct (N.ltb_spec x y), (N.ltb_spec y x), (N.ltb_spec y z),
    (N.ltb_spec z y), (N.ltb_spec x z), (N.ltb_spec z x);
    auto; try done; try lia.
  apply IH.
Qed.

#[export] Instance str_le_antisym : AntiSymm (=) str_le.
Proof.
  intros a. unfold str_le. induction a as [|x a IH]; intros [|y b]; simpl; auto;
    try done.
  destruct (N.ltb_spec x y), (N.ltb_spec y x); try done; try lia.
  intros H1 H2. f_equal; [lia | by apply IH].
Qed.

Lemma elem_of_all_tags app tag :
  tag ∈ all_tags app ↔ ∃ t, t ∈ tasks app ∧ tag ∈ tags t.
Proof.
  unfold all_tags.
  assert (∀ l (acc : gset pystr),
            tag ∈ foldl (λ acc task, acc ∪ list_to_set (tags task)) acc l
            ↔ tag ∈ acc ∨ ∃ t, t ∈ l ∧ tag ∈ tags t) as G.
  { induction l as [|x l IH]; intros acc; simpl.
    - split; [auto|]. intros [H|(t & Ht & _)]; [done|]. by inversion Ht.
    - rewrite IH, elem_of_union, elem_of_list_to_set. split.
      + intros [[H|H]|(t & Ht & Hin)]; [by left|right..].
        * exists x. split; [left | done].
        * exists t. split; [by right | done].
      + intros [H|(t & Ht & Hin)]; [by left; left|].
        apply elem_of_cons in Ht as [->|Ht]; [by left; right | right; eauto]. }
  rewrite G. split; [|by right]. intros [H|H]; [|done]. set_solver.
Qed.

Lemma elem_of_py_sorted (X : gset pystr) tag : tag ∈ py_sorted X ↔ tag ∈ X.
Proof.
  unfold py_sorted. rewrite merge_sort_Permutation. apply elem_of_elements.
Qed.




(** * Further properties *)

(** ** Decoding records *)

Lemma by_value_Ok {E} (members : list E) (value : E → pystr) v m :
  by_value members value v = Ok m → v = JStr (value m) ∧ m ∈ members.
Proof.
  unfold by_value. destruct v as [| | | |s| |]; try done.
  destruct (list_find _ members) as [[i x]|] eqn:Hf; [|done].
  intros [= <-]. apply list_find_Some in Hf as (Hi & <- & _).
  split; [done|]. by eapply list_elem_of_lookup_2.
Qed.

Lemma by_value_Raise {E} (members : list E) (value : E → pystr) v e :
  by_value members value v = Raise e → e = ValueError.
Proof.
  unfold by_value. destruct v as [| | | |s| |]; try (by intros [= <-]).
  destruct (list_find _ members) as [[i x]|]; [done | by intros [= <-]].
Qed.

(** X1: the label text decides the member.  A stored value decodes to a
    priority (a status) exactly when it is the string that is this member's
    label; every other value, string or not, raises [ValueError]. *)
Theorem enum_labels_decode_exactly (v : json) :
  (∀ p, Priority_call v = Ok p ↔ v = JStr (Priority_value p))
  ∧ (∀ s, Status_call v = Ok s ↔ v = JStr (Status_value s))
  ∧ (∀ e, Priority_call v = Raise e → e = ValueError)
  ∧ (∀ e, Status_call v = Raise e → e = ValueError).
Proof.
  repeat split.
  - intros H. by apply by_value_Ok in H as [-> _].
  - intros ->. apply Priority_call_value.
  - intros H. by apply by_value_Ok in H as [-> _].
  - intros ->. apply Status_call_value.
  - apply by_value_Raise.
  - apply by_value_Raise.
Qed.

Lemma dict_get_app key l1 l2 :
  dict_get key (l1 ++ l2)
  = match dict_get key l1 with Some v => Some v | None => dict_get key l2 end.
Proof.
  induction l1 as [|[k v] l1 IH]; simpl; [done|]. by case_decide.
Qed.

Lemma required_lookup t :
  dict_get (str_of "id") (required_members t) = Some (JInt (id t))
  ∧ dict_get (str_of "title") (required_members t) = Some (JStr (title t))
  ∧ dict_get (str_of "description") (required_members t)
    = Some (JStr (description t))
  ∧ dict_get (str_of "priority") (required_members t)
    = Some (JStr (Priority_value (priority t)))
  ∧ dict_get (str_of "status") (required_members t)
    = Some (JStr (Status_value (status t)))
  ∧ dict_get (str_of "created_at") (required_members t)
    = Some (JStr (created_at t))
  ∧ dict_get (str_of "due_date") (required_members t) = None
  ∧ dict_get (str_of "tags") (required_members t) = None.
Proof. repeat split; vm_compute; reflexivity. Qed.

(** X2: the two optional keys.  A record with the six required entries of a
    task, whose further entries give no due date (none, or [null]) and no
    tags (none, [null], or the empty list), decodes to that task with the
    due date absent and no tags; entries under any other key are ignored. *)
Theorem record_without_optional_keys (t : Task) (extra : list (pystr * json)) :
  (dict_get (str_of "due_date") extra = None
   ∨ dict_get (str_of "due_date") extra = Some JNull) →
  (dict_get (str_of "tags") extra = None
   ∨ dict_get (str_of "tags") extra = Some JNull
   ∨ dict_get (str_of "tags") extra = Some (JArr [])) →
  decodes_to (JObj (required_members t ++ extra))
             (mkTask (id t) (title t) (description t) (priority t) (status t)
                     (created_at t) None []).
Proof.
  intros Hd Ht.
  destruct (required_lookup t) as (H1 & H2 & H3 & H4 & H5 & H6 & H7 & H8).
  set (due := default JNull (dict_get (str_of "due_date") extra)).
  set (tg := default (JArr []) (dict_get (str_of "tags") extra)).
  exists (mkArgs (JInt (id t)) (JStr (title t)) (JStr (description t))
                 (priority t) (status t) (JStr (created_at t)) due tg).
  split.
  - unfold task_arguments, subscript, dict_get_default.
    rewrite !dict_get_app, H1, H2, H3, H4, H5, H6, H7, H8.
    cbn [mbind outcome_bind].
    rewrite Priority_call_value, Status_call_value. reflexivity.
  - unfold Task_init; simpl. subst due tg.
    destruct Hd as [-> | ->], Ht as [-> | [-> | ->]]; reflexivity.
Qed.

Lemma record_without_optional_keys_witness :
  decodes_to
    (JObj (required_members (sample_task 5 DONE [])
           ++ [(str_of "tags", JNull); (str_of "colour", JStr (str_of "red"))]))
    (sample_task 5 DONE []).
Proof.
  apply (record_without_optional_keys (sample_task 5 DONE [])
           [(str_of "tags", JNull); (str_of "colour", JStr (str_of "red"))]).
  - left. vm_compute. reflexivity.
  - right. left. vm_compute. reflexivity.
Defined.

(** X3: what is not a complete record never becomes a task.  A record that
    is not an object raises [TypeError]; an object lacking one of the six
    required keys raises as well, so the loop stops there. *)
Theorem incomplete_record_raises (task_data : json) :
  ((∀ members, task_data ≠ JObj members) →
     task_arguments task_data = Raise TypeError)
  ∧ (∀ members key,
       task_data = JObj members → key ∈ required_keys →
       dict_get key members = None →
       ∃ e, task_arguments task_data = Raise e).
Proof.
  split.
  - intros H. destruct task_data; try reflexivity. by destruct (H members).
  - intros members key -> Hk Hnone.
    unfold task_arguments, subscript.
    destruct (dict_get (str_of "id") members) eqn:E1; cbn [mbind outcome_bind];
      [|eauto].
    destruct (dict_get (str_of "title") members) eqn:E2;
      cbn [mbind outcome_bind]; [|eauto].
    destruct (dict_get (str_of "description") members) eqn:E3;
      cbn [mbind outcome_bind]; [|eauto].
    destruct (dict_get (str_of "priority") members) eqn:E4;
      cbn [mbind outcome_bind]; [|eauto].
    destruct (Priority_call _); cbn [mbind outcome_bind]; [|eauto].
    destruct (dict_get (str_of "status") members) eqn:E5;
      cbn [mbind outcome_bind]; [|eauto].
    destruct (Status_call _); cbn [mbind outcome_bind]; [|eauto].
    destruct (dict_get (str_of "created_at") members) eqn:E6;
      cbn [mbind outcome_bind]; [|eauto].
    unfold required_keys in Hk.
    repeat (apply elem_of_cons in Hk as [-> | Hk]; [congruence|]).
    by apply elem_of_nil in Hk.
Qed.

Lemma incomplete_record_raises_witness :
  ∃ e, task_arguments (JObj [(str_of "id", JInt 1); (str_of "title", JStr [])])
       = Raise e.
Proof.
  refine (proj2 (incomplete_record_raises _) _ (str_of "status") eq_refl _ _).
  - vm_compute. repeat constructor.
  - vm_compute. reflexivity.
Defined.

(** X4: for a file whose records, as far as the loop builds tasks from
    them, carry fields of the annotated types (an integer id in particular;
    these are the files the embedding answers for): whether the loop runs
    to its end or is stopped by an exception, the counter is at least 1 and
    above the id of every task loaded, so the next addition never takes the
    id of a loaded task. *)
Theorem loaded_ids_below_counter disk app' r :
  TodoApp_init disk = Some (app', r) →
  1 ≤ current_id app'
  ∧ Forall (λ t, id t < current_id app') (tasks app')
  ∧ ∀ now title_in description_in priority_in due_date_in tags_in task,
      (add_task app' now title_in description_in priority_in due_date_in
                tags_in).2 = Added task →
      Forall (λ t, id t ≠ id task) (tasks app').
Proof.
  intros H. rewrite (init_result _ _ _ H).
  pose proof (bump_above 1 (tasks app')) as Hb.
  repeat split; [apply bump_ge | done |].
  intros now ti de pr du tg task. unfold add_task.
  case_decide; [done|]. simpl. intros [= <-]. simpl.
  rewrite (init_result _ _ _ H).
  eapply Forall_impl; [exact Hb|]. simpl. intros; lia.
Qed.

Lemma loaded_ids_below_counter_witness :
  1 ≤ 2 ∧ Forall (λ t, id t < 2) [sample_task 1 TODO []].
Proof.
  pose proof (loaded_ids_below_counter
                (mkDisk (Some (Document two_records_second_corrupt)) true)
                (mkApp [sample_task 1 TODO []] 2) (Some ValueError))
    as H.
  refine (let '(conj H1 (conj H2 _)) := H _ in conj H1 H2).
  vm_compute. reflexivity.
Defined.

(** X5: a document that is not a JSON array never loads a task: whatever
    else the file holds (an object, a string, a number, [null]), the store
    stays empty and the counter stays 1. *)
Theorem non_array_document_loads_nothing (data : json) (w : bool) :
  (∀ items, data ≠ JArr items) →
  ∃ r, TodoApp_init (mkDisk (Some (Document data)) w) = Some (mkApp [] 1, r).
Proof.
  intros H. unfold TodoApp_init, load_tasks; simpl.
  destruct data as [| | | |s|items|members]; simpl; eauto.
  - destruct s; simpl; eauto.
  - by destruct (H items).
  - destruct members as [|[k v] members]; simpl; eauto.
Qed.

Lemma non_array_document_loads_nothing_witness :
  ∃ r, TodoApp_init
         (mkDisk (Some (Document (JObj [(str_of "id", JInt 1)]))) true)
       = Some (mkApp [] 1, r).
Proof. apply non_array_document_loads_nothing. intros items. discriminate. Defined.

Lemma init_after_save app disk :
  writable disk = true →
  forallb task_encodable (tasks app) = true →
  TodoApp_init (save_tasks app disk).1
  = Some (mkApp (tasks app) (bump 1 (tasks app)), None).
Proof.
  intros Hw He. unfold save_tasks. rewrite Hw, He; simpl.
  unfold TodoApp_init, load_tasks; simpl.
  rewrite (load_loop_decoded _ (tasks app)); [done|].
  apply Forall2_fmap_l, Forall_Forall2_diag, Forall_forall.
  intros t _. apply to_dict_decodes.
Qed.

Lemma bump_le c ts b :
  c ≤ b → Forall (λ t, id t < b) ts → bump c ts ≤ b.
Proof.
  revert c; induction ts as [|t ts IH]; intros c Hc Hts; simpl; [done|].
  apply Forall_cons in Hts as [Ht Hts]. apply IH; [lia | done].
Qed.

(** X6: the counter is not written to the file.  When the file can be
    written and every string of the store can be encoded in UTF-8, after
    saving and starting again the tasks are the same, but the counter is
    computed from them: one past the largest id, at least 1.  It is never
    above the counter before; it is below when the newest tasks had been
    deleted (as in the witness), whose ids are then handed out again. *)
Theorem counter_recomputed_on_restart app disk :
  writable disk = true →
  forallb task_encodable (tasks app) = true →
  1 ≤ current_id app →
  Forall (λ t, id t < current_id app) (tasks app) →
  ∃ app',
    TodoApp_init (save_tasks app disk).1 = Some (app', None)
    ∧ tasks app' = tasks app
    ∧ current_id app'
      = match max_id (tasks app) with Some m => Z.max 1 (m + 1) | None => 1 end
    ∧ current_id app' ≤ current_id app.
Proof.
  intros Hw He Hc Hlt. eexists. split; [by apply init_after_save|]. simpl.
  split; [done|]. split; [apply bump_max_id|]. by apply bump_le.
Qed.

Lemma counter_recomputed_on_restart_witness :
  ∃ app',
    TodoApp_init (save_tasks newest_deleted (mkDisk None true)).1
    = Some (app', None)
    ∧ tasks app' = tasks newest_deleted
    ∧ current_id app' = 2
    ∧ current_id app' ≤ 3.
Proof.
  apply (counter_recomputed_on_restart newest_deleted (mkDisk None true)).
  - reflexivity.
  - vm_compute. reflexivity.
  - vm_compute. discriminate.
  - vm_compute. repeat constructor.
Defined.

(** X7: [to_dict] loses nothing: two tasks with the same dict are the same
    task. *)
Theorem to_dict_injective (t1 t2 : Task) : to_dict t1 = to_dict t2 → t1 = t2.
Proof.
  intros H.
  destruct (to_dict_decodes t1) as (a1 & Ha1 & Hi1).
  destruct (to_dict_decodes t2) as (a2 & Ha2 & Hi2).
  rewrite H in Ha1. congruence.
Qed.

Lemma to_dict_injective_witness :
  sample_task 1 TODO [] = sample_task 1 TODO [].
Proof. apply to_dict_injective. reflexivity. Defined.

(** ** What the commands keep *)

Lemma set_status_same t : set_status t (status t) = t.
Proof. by destruct t. Qed.

(** X8: a method that reports a refusal has changed nothing.  After an
    empty title, an empty list, an entry that is no number, an id that is
    not found, a deletion not confirmed, or a completion when all is done,
    the tasks and the counter are what they were. *)
Theorem refused_command_changes_nothing app c :
  no_change_report (step app c).2 = true → (step app c).1 = app.
Proof.
  destruct c as [now ti de pr du tg|k ti de st|k|k y]; simpl.
  - unfold add_task. by case_decide.
  - unfold edit_task. destruct (tasks app) as [|t0 l0]; [done|].
    destruct (py_int k) as [n|]; [|done].
    by destruct (find_task app n) as [[i t]|].
  - unfold complete_task. destruct (tasks app) as [|t0 l0]; [done|].
    destruct (filter _ _) as [|a0 f0]; [done|].
    destruct (py_int k) as [n|]; [|done].
    by destruct (find_task app n) as [[i t]|].
  - unfold delete_task. destruct (tasks app) as [|t0 l0] eqn:Hl; [done|].
    destruct (py_int k) as [n|]; [|done].
    destruct (find_task app n) as [[i t]|]; [|done].
    destruct (lower_is_y y); [|done].
    by destruct (py_remove t (t0 :: l0)).
Qed.

Lemma refused_command_changes_nothing_witness :
  (step two_tasks (CmdDelete (str_of "4") (str_of "n"))).1 = two_tasks.
Proof.
  apply (refused_command_changes_nothing two_tasks
           (CmdDelete (str_of "4") (str_of "n"))).
  vm_compute. reflexivity.
Defined.

Lemma py_remove_sublist x l r : py_remove x l = Some r → r `sublist_of` l.
Proof.
  intros H. apply py_remove_Some in H as (l1 & l2 & -> & ->).
  apply sublist_app; [done|]. by apply sublist_cons.
Qed.

Lemma edit_fields_title t a b c : title t ≠ [] → title (edit_fields t a b c) ≠ [].
Proof. unfold edit_fields. by repeat case_decide. Qed.

Lemma step_titles app c :
  Forall (λ t, title t ≠ []) (tasks app) →
  Forall (λ t, title t ≠ []) (tasks (step app c).1).
Proof.
  intros H. destruct c as [now ti de pr du tg|k ti de st|k|k y]; simpl.
  - unfold add_task. case_decide; [done|]. simpl.
    apply Forall_app. split; [done|]. by repeat constructor.
  - unfold edit_task. destruct (tasks app) as [|t0 l0] eqn:Hl; [by simpl; rewrite Hl|].
    destruct (py_int k) as [n|]; [|by simpl; rewrite Hl].
    destruct (find_task app n) as [[i t]|] eqn:Hf; [|by simpl; rewrite Hl].
    apply find_task_Some in Hf as [Hi _]. rewrite Hl in Hi. simpl.
    apply Forall_insert; [done|]. apply edit_fields_title.
    rewrite Forall_forall in H. apply H. by eapply list_elem_of_lookup_2.
  - unfold complete_task. destruct (tasks app) as [|t0 l0] eqn:Hl; [by simpl; rewrite Hl|].
    destruct (filter _ _) as [|a0 f0]; [by simpl; rewrite Hl|].
    destruct (py_int k) as [n|]; [|by simpl; rewrite Hl].
    destruct (find_task app n) as [[i t]|] eqn:Hf; [|by simpl; rewrite Hl].
    apply find_task_Some in Hf as [Hi _]. rewrite Hl in Hi. simpl.
    apply Forall_insert; [done|]. simpl.
    rewrite Forall_forall in H. apply H. by eapply list_elem_of_lookup_2.
  - unfold delete_task. destruct (tasks app) as [|t0 l0] eqn:Hl; [by simpl; rewrite Hl|].
    destruct (py_int k) as [n|]; [|by simpl; rewrite Hl].
    destruct (find_task app n) as [[i t]|]; [|by simpl; rewrite Hl].
    destruct (lower_is_y y); [|by simpl; rewrite Hl].
    destruct (py_remove t (t0 :: l0)) as [r|] eqn:Hr; [|by simpl; rewrite Hl].
    simpl. apply py_remove_sublist in Hr.
    rewrite Forall_forall in H |- *.
    intros x Hx. apply H. by eapply elem_of_sublist.
Qed.

(** X9: no command empties a title.  If every task of the store has a
    title, so has every task after any sequence of additions, edits,
    completions and deletions. *)
Theorem titles_stay_nonempty app cs :
  Forall (λ t, title t ≠ []) (tasks app) →
  Forall (λ t, title t ≠ []) (tasks (run app cs).1).
Proof.
  revert app; induction cs as [|c cs IH]; intros app H; [done|].
  rewrite run_cons; simpl. by apply IH, step_titles.
Qed.

Lemma titles_stay_nonempty_witness :
  Forall (λ t, title t ≠ [])
    (tasks (run two_tasks
              [CmdEdit (str_of "4") (str_of "   ") [] [];
               CmdAdd (str_of "03.03.2025 12:00") (str_of " x ") [] [] [] []]).1).
Proof.
  apply (titles_stay_nonempty two_tasks).
  vm_compute. repeat constructor; discriminate.
Defined.

Lemma same_fixed_refl t : same_fixed_fields t t.
Proof. by repeat split. Qed.

Lemma same_fixed_trans t1 t2 t3 :
  same_fixed_fields t1 t2 → same_fixed_fields t2 t3 → same_fixed_fields t1 t3.
Proof. unfold same_fixed_fields. intros (?&?&?&?&?) (?&?&?&?&?). repeat split; congruence. Qed.

Lemma edit_fields_fixed t a b c : same_fixed_fields t (edit_fields t a b c).
Proof. unfold edit_fields. repeat split; by repeat case_decide. Qed.

(** What a command does to the list of tasks, by its report. *)
Lemma step_effect app c :
  (∃ t, (step app c).2 = Added t ∧ tasks (step app c).1 = tasks app ++ [t])
  ∨ (∃ t l1 l2, (step app c).2 = Deleted t ∧ tasks app = l1 ++ t :: l2
                ∧ tasks (step app c).1 = l1 ++ l2)
  ∨ (∃ i t t', ((step app c).2 = Updated t' ∨ (step app c).2 = Completed t')
               ∧ tasks app !! i = Some t
               ∧ tasks (step app c).1 = <[i := t']> (tasks app)
               ∧ same_fixed_fields t t')
  ∨ (no_change_report (step app c).2 = true ∧ (step app c).1 = app).
Proof.
  destruct c as [now ti de pr du tg|k ti de st|k|k y]; simpl.
  - unfold add_task. case_decide; simpl; [by repeat right|]. left. eauto.
  - unfold edit_task. destruct (tasks app) as [|t0 l0] eqn:Hl; [by repeat right|].
    destruct (py_int k) as [n|]; [|by repeat right].
    destruct (find_task app n) as [[i t]|] eqn:Hf; [|by repeat right].
    apply find_task_Some in Hf as [Hi _]. rewrite Hl in Hi.
    right; right; left. exists i, t, (edit_fields t ti de st). simpl.
    split; [by left|]. split; [done|]. split; [done|]. apply edit_fields_fixed.
  - unfold complete_task. destruct (tasks app) as [|t0 l0] eqn:Hl; [by repeat right|].
    destruct (filter _ _) as [|a0 f0]; [by repeat right|].
    destruct (py_int k) as [n|]; [|by repeat right].
    destruct (find_task app n) as [[i t]|] eqn:Hf; [|by repeat right].
    apply find_task_Some in Hf as [Hi _]. rewrite Hl in Hi.
    right; right; left. exists i, t, (set_status t DONE). simpl.
    split; [by right|]. by repeat split.
  - unfold delete_task. destruct (tasks app) as [|t0 l0] eqn:Hl; [by repeat right|].
    destruct (py_int k) as [n|]; [|by repeat right].
    destruct (find_task app n) as [[i t]|]; [|by repeat right].
    destruct (lower_is_y y); [|by repeat right].
    destruct (py_remove t (t0 :: l0)) as [r|] eqn:Hr; [|by repeat right].
    apply py_remove_Some in Hr as (l1 & l2 & Hl' & ->).
    right; left. exists t, l1, l2. by simpl.
Qed.

Lemma step_fixed_fields app c t' :
  t' ∈ tasks (step app c).1 →
  (∃ t, t ∈ tasks app ∧ same_fixed_fields t t') ∨ (step app c).2 = Added t'.
Proof.
  intros Hin.
  destruct (step_effect app c)
    as [(t & Hr & Ht)|[(t & l1 & l2 & Hr & Hl & Ht)|[(i & t & t1 & Hr & Hi & Ht & Hs)|[_ He]]]].
  - rewrite Ht in Hin. apply elem_of_app in Hin as [Hin|Hin].
    + left. exists t'. split; [done | apply same_fixed_refl].
    + apply list_elem_of_singleton in Hin as ->. by right.
  - left. exists t'. split; [|apply same_fixed_refl].
    rewrite Ht in Hin. rewrite Hl.
    apply elem_of_app in Hin as [Hin|Hin]; apply elem_of_app; [by left|].
    right. by right.
  - left. rewrite Ht in Hin.
    apply list_elem_of_lookup in Hin as [j Hj].
    destruct (decide (j = i)) as [->|Hne].
    + rewrite list_lookup_insert_eq in Hj by (by eapply lookup_lt_Some).
      injection Hj as <-. exists t. split; [by eapply list_elem_of_lookup_2|done].
    + rewrite list_lookup_insert_ne in Hj by done.
      exists t'. split; [by eapply list_elem_of_lookup_2 | apply same_fixed_refl].
  - left. rewrite He in Hin. exists t'. split; [done | apply same_fixed_refl].
Qed.

Lemma added_tasks_cons r rs :
  added_tasks (r :: rs)
  = match r with Added t => t :: added_tasks rs | _ => added_tasks rs end.
Proof. by destruct r. Qed.

(** X10: the fields no method assigns to.  Every task in the store after a
    run of commands has the id, creation time, priority, due date and tags
    of a task that was in the store before the run, or of a task the run
    added: editing and completing never touch these fields. *)
Theorem fixed_fields_survive app cs t' :
  t' ∈ tasks (run app cs).1 →
  (∃ t, t ∈ tasks app ∧ same_fixed_fields t t')
  ∨ (∃ t, t ∈ added_tasks (run app cs).2 ∧ same_fixed_fields t t').
Proof.
  revert app; induction cs as [|c cs IH]; intros app.
  - simpl. intros H. left. exists t'. split; [done | apply same_fixed_refl].
  - rewrite run_cons; cbn [fst snd]. intros H.
    destruct (IH _ H) as [(t1 & H1 & Hs1)|(t1 & H1 & Hs1)].
    + destruct (step_fixed_fields app c t1 H1) as [(t & Ht & Hs)|Hadd].
      * left. exists t. split; [done|]. by eapply same_fixed_trans.
      * right. exists t1. split; [|done].
        rewrite added_tasks_cons, Hadd. by left.
    + right. exists t1. split; [|done]. rewrite added_tasks_cons.
      destruct (step app c).2; try done. by right.
Qed.

Lemma fixed_fields_survive_witness :
  (∃ t, t ∈ tasks two_tasks
        ∧ same_fixed_fields t
            (mkTask 4 (str_of "Call") (str_of "soon") URGENT DONE
                    (str_of "02.03.2025 09:30") (Some (str_of "05.03.2025")) []))
  ∨ (∃ t, t ∈ added_tasks
            (run two_tasks [CmdEdit (str_of "4") (str_of "Call") [] (str_of "3")]).2
          ∧ same_fixed_fields t
              (mkTask 4 (str_of "Call") (str_of "soon") URGENT DONE
                      (str_of "02.03.2025 09:30") (Some (str_of "05.03.2025")) [])).
Proof.
  apply (fixed_fields_survive two_tasks
           [CmdEdit (str_of "4") (str_of "Call") [] (str_of "3")]).
  vm_compute. right. left.
Defined.

Lemma added_ids_cons r rs :
  added_ids (r :: rs)
  = match r with Added t => id t :: added_ids rs | _ => added_ids rs end.
Proof. by destruct r. Qed.

(** X11: the order of the list.  After a run of commands the ids in the
    store are, in this order: ids that were in the store before, in their
    old order, followed by ids the run handed out, in the order of the
    additions.  Tasks are only ever appended at the end or removed. *)
Theorem run_keeps_order app cs :
  ∃ kept new,
    map id (tasks (run app cs).1) = kept ++ new
    ∧ kept `sublist_of` map id (tasks app)
    ∧ new `sublist_of` added_ids (run app cs).2.
Proof.
  revert app; induction cs as [|c cs IH]; intros app.
  - exists (map id (tasks app)), []. simpl. by rewrite app_nil_r.
  - rewrite run_cons; cbn [fst snd].
    destruct (IH (step app c).1) as (kept & new & Heq & Hk & Hn).
    rewrite Heq, added_ids_cons.
    destruct (step_has_shape app c) as [t Ht Hts Hc|t l1 l2 Hl Hts Hc|r Hm Hc Ha Hd].
    + rewrite Hts, map_app in Hk. simpl in Hk.
      apply sublist_app_r in Hk as (k1 & k2 & -> & Hk1 & Hk2).
      exists k1, (k2 ++ new). rewrite <- app_assoc. split; [done|]. split; [done|].
      change (id t :: added_ids (run (step app c).1 cs).2)
        with ([id t] ++ added_ids (run (step app c).1 cs).2).
      by apply sublist_app.
    + exists kept, new. split; [done|]. split; [|done].
      etrans; [exact Hk|]. rewrite Hts, Hl, !map_app. simpl.
      apply sublist_app; [done|]. by apply sublist_cons.
    + exists kept, new. split; [done|]. split; [by rewrite <- Hm|].
      destruct r; try done. by destruct (Ha task).
Qed.

(** X12: the number of tasks.  After a run of commands the store has as
    many tasks as before, plus one for each addition reported, minus one
    for each deletion reported. *)
Theorem run_task_count app cs :
  (length (tasks (run app cs).1) + length (deleted_tasks (run app cs).2)
   = length (tasks app) + length (added_tasks (run app cs).2))%nat.
Proof.
  revert app; induction cs as [|c cs IH]; intros app; [simpl; lia|].
  rewrite run_cons; cbn [fst snd]. specialize (IH (step app c).1).
  rewrite added_tasks_cons.
  assert (deleted_tasks ((step app c).2 :: (run (step app c).1 cs).2)
          = match (step app c).2 with
            | Deleted t => t :: deleted_tasks (run (step app c).1 cs).2
            | _ => deleted_tasks (run (step app c).1 cs).2
            end) as -> by (by destruct (step app c).2).
  destruct (step_effect app c)
    as [(t & Hr & Ht)|[(t & l1 & l2 & Hr & Hl & Ht)|[(i & t & t1 & Hr & Hi & Ht & Hs)|[Hr He]]]].
  - rewrite Hr. rewrite Ht, length_app in IH. simpl in *. lia.
  - rewrite Hr. rewrite Ht in IH. rewrite Hl. rewrite !length_app in *. simpl in *. lia.
  - rewrite Ht, length_insert in IH. destruct Hr as [-> | ->]; simpl in *; exact IH.
  - destruct (step app c) as [a r]; simpl in *; subst a.
    destruct r; try done; simpl; exact IH.
Qed.

(** ** Single commands *)










Lemma edit_fields_blank t a b c :
  py_strip a = [] → py_strip b = [] → py_strip c = [] → edit_fields t a b c = t.
Proof.
  intros Ha Hb Hc. unfold edit_fields.
  rewrite !decide_True by done. rewrite choose_status_blank by done.
  apply set_status_same.
Qed.

(** X16: leaving every field blank keeps everything.  When the three
    entries of an edit are empty or blank, the store after the edit is the
    store before it, whatever id was entered. *)
Theorem edit_all_blank_keeps_store app id_in title_in description_in status_in :
  py_strip title_in = [] → py_strip description_in = [] →
  py_strip status_in = [] →
  (edit_task app id_in title_in description_in status_in).1 = app.
Proof.
  intros Ha Hb Hc. unfold edit_task.
  destruct (tasks app) as [|t0 l0] eqn:Hl; [done|].
  destruct (py_int id_in) as [k|]; [|done].
  destruct (find_task app k) as [[i t]|] eqn:Hf; [|done].
  apply find_task_Some in Hf as [Hi _]. simpl.
  rewrite edit_fields_blank by done. rewrite <- Hl, list_insert_id by done.
  by destruct app.
Qed.

Lemma edit_all_blank_keeps_store_witness :
  (edit_task two_tasks (str_of "4") (str_of "  ") [] (str_of " ")).1 = two_tasks.
Proof. apply edit_all_blank_keeps_store; vm_compute; reflexivity. Defined.



(** X18: the priority of a new task.  With a title that is not blank the
    task is always added, whatever is entered for the priority: an entry 1
    to 4 gives the priority of that number in the menu; an entry that is
    not a number, or a number above 4 or below -3, gives medium; the
    entries 0, -1, -2, -3 count from the end of the menu (0 is urgent). *)
Theorem add_priority_choice app now title_in description_in priority_in
    due_date_in tags_in :
  py_strip title_in ≠ [] →
  ∃ task,
    add_task app now title_in description_in priority_in due_date_in tags_in
    = (mkApp (tasks app ++ [task]) (current_id app + 1), Added task)
    ∧ status task = TODO ∧ created_at task = now
    ∧ (∀ n, py_int priority_in = Some n → 1 ≤ n ≤ 4 →
            list_Priority !! Z.to_nat (n - 1) = Some (priority task))
    ∧ (∀ n, py_int priority_in = Some n → -3 ≤ n ≤ 0 →
            list_Priority !! Z.to_nat (n + 3) = Some (priority task))
    ∧ (py_int priority_in = None
       ∨ (∃ n, py_int priority_in = Some n ∧ (n < -3 ∨ 4 < n)) →
       priority task = MEDIUM).
Proof.
  intros Ht. unfold add_task. rewrite decide_False by done.
  eexists. split; [reflexivity|]. cbn [status created_at priority].
  split; [done|]. split; [done|]. unfold choose_priority. repeat split.
  - intros n -> Hn.
    assert (n = 1 ∨ n = 2 ∨ n = 3 ∨ n = 4) as [->|[->|[->| ->]]] by lia;
      reflexivity.
  - intros n -> Hn.
    assert (n = 0 ∨ n = -1 ∨ n = -2 ∨ n = -3) as [->|[->|[->| ->]]] by lia;
      reflexivity.
  - intros [->|(n & -> & Hn)]; [done|].
    unfold py_getitem. simpl length.
    rewrite decide_False by (simpl; lia). by rewrite decide_False by (simpl; lia).
Qed.

Lemma add_priority_choice_witness :
  ∃ task,
    add_task two_tasks (str_of "03.03.2025 12:00") (str_of "x") [] (str_of "0")
             [] []
    = (mkApp (tasks two_tasks ++ [task]) (current_id two_tasks + 1), Added task)
    ∧ status task = TODO ∧ created_at task = str_of "03.03.2025 12:00"
    ∧ (∀ n, py_int (str_of "0") = Some n → 1 ≤ n ≤ 4 →
            list_Priority !! Z.to_nat (n - 1) = Some (priority task))
    ∧ (∀ n, py_int (str_of "0") = Some n → -3 ≤ n ≤ 0 →
            list_Priority !! Z.to_nat (n + 3) = Some (priority task))
    ∧ (py_int (str_of "0") = None
       ∨ (∃ n, py_int (str_of "0") = Some n ∧ (n < -3 ∨ 4 < n)) →
       priority task = MEDIUM).
Proof.
  apply (add_priority_choice two_tasks). vm_compute. discriminate.
Defined.

(** ** Tags of a new task *)

Lemma py_lstrip_split s :
  ∃ w, s = w ++ py_lstrip s ∧ Forall (λ c, py_isspace c = true) w.
Proof.
  induction s as [|c s (w & Hw & Hs)]; simpl; [by exists []|].
  destruct (py_isspace c) eqn:Hc.
  - exists (c :: w). split; [simpl; by f_equal | by constructor].
  - by exists [].
Qed.

Lemma py_lstrip_fixed s :
  match s with [] => True | c :: _ => py_isspace c = false end →
  py_lstrip s = s.
Proof. destruct s as [|c r]; simpl; [done|]. by intros ->. Qed.

Lemma py_lstrip_idem s : py_lstrip (py_lstrip s) = py_lstrip s.
Proof.
  apply py_lstrip_fixed. destruct (py_lstrip s) as [|c r] eqn:H; [done|].
  by eapply py_lstrip_head.
Qed.

Lemma py_rstrip_split s :
  ∃ w, s = py_rstrip s ++ w ∧ Forall (λ c, py_isspace c = true) w.
Proof.
  destruct (py_lstrip_split (rev s)) as (w & Hw & Hs).
  exists (rev w). split.
  - unfold py_rstrip. rewrite <- rev_app_distr, <- Hw. by rewrite rev_involutive.
  - apply Forall_forall. intros x Hx. rewrite Forall_forall in Hs. apply Hs.
    apply list_elem_of_In, in_rev, list_elem_of_In. done.
Qed.

Lemma py_rstrip_idem s : py_rstrip (py_rstrip s) = py_rstrip s.
Proof. unfold py_rstrip. by rewrite rev_involutive, py_lstrip_idem. Qed.

(** Trimming a trimmed string changes nothing. *)
Lemma py_strip_idem s : py_strip (py_strip s) = py_strip s.
Proof.
  unfold py_strip.
  assert (py_lstrip (py_rstrip (py_lstrip s)) = py_rstrip (py_lstrip s)) as ->.
  { apply py_lstrip_fixed.
    destruct (py_rstrip_split (py_lstrip s)) as (w & Hw & _).
    destruct (py_rstrip (py_lstrip s)) as [|c r]; [done|].
    eapply py_lstrip_head. exact Hw. }
  apply py_rstrip_idem.
Qed.

Lemma py_strip_elem s x : x ∈ py_strip s → x ∈ s.
Proof.
  unfold py_strip. intros H.
  destruct (py_rstrip_split (py_lstrip s)) as (w & Hw & _).
  destruct (py_lstrip_split s) as (w' & Hw' & _).
  rewrite Hw'. apply elem_of_app. right. rewrite Hw. apply elem_of_app. by left.
Qed.

Lemma py_split_comma_pieces s : Forall (λ p, 44%N ∉ p) (py_split_comma s).
Proof.
  induction s as [|c s IH]; simpl.
  - repeat constructor. by inversion 1.
  - destruct (N.eqb_spec c 44) as [->|Hc].
    + constructor; [by inversion 1 | done].
    + destruct (py_split_comma s) as [|h t]; [repeat constructor|].
      * intros H. apply list_elem_of_singleton in H. congruence.
      * apply Forall_cons in IH as [Hh Ht]. constructor; [|done].
        intros H. apply elem_of_cons in H as [H|H]; [congruence | done].
Qed.

(** X19: the tags of a new task.  Each tag stored by an addition is not
    empty, has no comma in it and no whitespace at either end, whatever was
    typed on the tags line. *)
Theorem added_tags_are_clean app now title_in description_in priority_in
    due_date_in tags_in task :
  (add_task app now title_in description_in priority_in due_date_in tags_in).2
  = Added task →
  Forall (λ tag, tag ≠ [] ∧ (44%N ∉ tag) ∧ py_strip tag = tag) (tags task).
Proof.
  unfold add_task. case_decide; [done|]. simpl. intros [= <-]. simpl.
  unfold split_tags. apply Forall_forall. intros tag Hin.
  apply list_elem_of_filter in Hin as [Hne Hin].
  apply list_elem_of_fmap in Hin as (piece & -> & Hp).
  split; [done|]. split; [|apply py_strip_idem].
  intros Hc. apply py_strip_elem in Hc.
  pose proof (py_split_comma_pieces (py_strip tags_in)) as Hall.
  rewrite Forall_forall in Hall. by apply (Hall piece Hp).
Qed.

Lemma added_tags_are_clean_witness :
  Forall (λ tag, tag ≠ [] ∧ (44%N ∉ tag) ∧ py_strip tag = tag)
         [str_of "home"; str_of "to do"].
Proof.
  refine (added_tags_are_clean two_tasks (str_of "03.03.2025 12:00") (str_of "x")
            [] [] [] (str_of " home ,, to do , ")
            (mkTask 7 (str_of "x") [] MEDIUM TODO (str_of "03.03.2025 12:00") None
                    [str_of "home"; str_of "to do"]) _).
  vm_compute. reflexivity.
Defined.

(** ** Statistics, tags and search *)

Lemma count_by_status (l : list Task) :
  (length (filter (λ t, status t = DONE) l)
   + length (filter (λ t, status t = IN_PROGRESS) l)
   + length (filter (λ t, status t = TODO) l)
   + length (filter (λ t, status t = CANCELLED) l) = length l)%nat.
Proof.
  induction l as [|a l IH]; [done|].
  rewrite !filter_cons. destruct (status a); simpl; lia.
Qed.

(** X20: the counts of the statistics.  On a store that is not empty the
    report is given; its total is the number of tasks, and the three counts
    shown (done, in progress, to do) add up to the total less the cancelled
    tasks, which are counted in the total but shown on no line. *)
Theorem stats_counts app :
  tasks app ≠ [] →
  ∃ s, show_stats app = Ok (Figures s)
       ∧ st_total s = Z.of_nat (length (tasks app))
       ∧ st_done s = count_status app DONE
       ∧ st_done s + st_in_progress s + st_todo s
         = st_total s - count_status app CANCELLED
       ∧ 0 ≤ st_done s ≤ st_total s.
Proof.
  intros Hne. unfold show_stats.
  set (total := Z.of_nat (length (tasks app))).
  assert (total ≠ 0) as Ht
    by (subst total; destruct (tasks app); [done | simpl; lia]).
  rewrite decide_False by done.
  destruct (percent_ok (count_status app DONE) total Ht) as [p1 ->].
  destruct (percent_ok (count_status app IN_PROGRESS) total Ht) as [p2 ->].
  destruct (percent_ok (count_status app TODO) total Ht) as [p3 ->].
  rewrite (decide_True (P := total > 0)) by lia.
  unfold py_truediv. rewrite decide_False by done.
  eexists. split; [reflexivity|]. cbn [st_total st_done st_in_progress st_todo].
  pose proof (count_by_status (tasks app)) as Hc.
  unfold count_status, total. repeat split; lia.
Qed.

Lemma stats_counts_witness :
  ∃ s, show_stats one_cancelled = Ok (Figures s)
       ∧ st_total s = 2
       ∧ st_done s = 1
       ∧ st_done s + st_in_progress s + st_todo s = st_total s - 1
       ∧ 0 ≤ st_done s ≤ st_total s.
Proof. apply (stats_counts one_cancelled). discriminate. Defined.

Lemma tag_lines_elem app tag n :
  (tag, n) ∈ tag_lines (manage_tags app) →
  tag ∈ all_tags app ∧ n = tag_count app tag.
Proof.
  unfold manage_tags. case_decide as He; simpl; [by inversion 1|].
  intros H. apply (list_elem_of_fmap_1 _) in H as (x & [= -> ->] & Hx).
  split; [by apply elem_of_py_sorted | done].
Qed.

Lemma tag_count_bounds app tag :
  tag ∈ all_tags app → 1 ≤ tag_count app tag ≤ Z.of_nat (length (tasks app)).
Proof.
  intros Hin. unfold tag_count. split.
  - apply elem_of_all_tags in Hin as (t & Ht & Htag).
    assert (t ∈ filter (λ t, tag ∈ tags t) (tasks app)) as Hf
      by (by apply list_elem_of_filter).
    destruct (filter _ _); [by inversion Hf | simpl; lia].
  - pose proof (length_filter (λ t, tag ∈ tags t) (tasks app)). lia.
Qed.

(** X21: the tag list.  The notice that no tags exist is given exactly when
    no task has a tag; otherwise every tag listed is carried by at least
    one task and by no more tasks than the store holds. *)
Theorem tag_list_counts app :
  (manage_tags app = NoTags ↔ Forall (λ t, tags t = []) (tasks app))
  ∧ ∀ tag n, (tag, n) ∈ tag_lines (manage_tags app) →
             1 ≤ n ≤ Z.of_nat (length (tasks app)).
Proof.
  split.
  - unfold manage_tags. case_decide as He; split; try done.
    + intros _. apply Forall_forall. intros t Ht.
      destruct (tags t) as [|tag r] eqn:Htg; [done|].
      assert (tag ∈ all_tags app) as Hin
        by (apply elem_of_all_tags; exists t; rewrite Htg; split; [done | left]).
      rewrite He in Hin. set_solver.
    + intros Hall. destruct He. apply set_eq. intros tag.
      rewrite elem_of_all_tags. split; [|set_solver].
      intros (t & Ht & Hin). rewrite Forall_forall in Hall.
      rewrite (Hall t Ht) in Hin. by inversion Hin.
  - intros tag n H. apply tag_lines_elem in H as [Hin ->].
    by apply tag_count_bounds.
Qed.




(** ** A whole session *)

(** X23: leaving with save and starting again.  When the file can be
    written and every string of the store the session ended with can be
    encoded in UTF-8, the tasks found at the next start are exactly the
    tasks the session ended with, in the same order, and the start reports
    no error. *)
Theorem restart_after_save_exit disk cs disk' app :
  writable disk = true →
  main disk cs SaveAndExit = Some (disk', app) →
  forallb task_encodable (tasks app) = true →
  ∃ app', TodoApp_init disk' = Some (app', None)
          ∧ tasks app' = tasks app
          ∧ ∀ cs' d'' app'', main disk' cs' ExitWithoutSaving = Some (d'', app'') →
              d'' = disk' ∧ app'' = (run app' cs').1.
Proof.
  intros Hw. unfold main.
  destruct (TodoApp_init disk) as [[app0 r0]|]; [|done].
  cbn [mbind option_bind fst snd]. intros [= <- <-] He.
  rewrite (init_after_save _ _ Hw He).
  eexists. split; [reflexivity|]. split; [done|].
  intros cs' d'' app''. cbn [mbind option_bind fst snd].
  by intros [= <- <-].
Qed.

Lemma restart_after_save_exit_witness :
  ∃ app',
    TodoApp_init (save_tasks (run (mkApp [] 1) sample_run).1 (mkDisk None true)).1
    = Some (app', None)
    ∧ tasks app' = tasks (run (mkApp [] 1) sample_run).1.
Proof.
  destruct (restart_after_save_exit (mkDisk None true) sample_run
              (save_tasks (run (mkApp [] 1) sample_run).1 (mkDisk None true)).1
              (run (mkApp [] 1) sample_run).1 eq_refl eq_refl eq_refl)
    as (app' & H & Ht & _).
  exists app'. exact (conj H Ht).
Defined.



(** X25: ids over a session.  For a file whose records, as far as the loop
    builds tasks from them, carry fields of the annotated types (the files
    the embedding answers for) and repeat no id: the ids in the store are
    distinct and below the counter after loading, whether the loop ran to
    its end or was stopped by an exception, and they stay so after any
    sequence of commands. *)
Theorem session_ids_distinct disk app r cs :
  TodoApp_init disk = Some (app, r) →
  NoDup (map id (tasks app)) →
  NoDup (map id (tasks (run app cs).1))
  ∧ Forall (λ t, id t < current_id (run app cs).1) (tasks (run app cs).1).
Proof.
  intros Hi Hnd. apply run_ids_fresh. by eapply ids_fresh_loaded.
Qed.

Lemma session_ids_distinct_witness :
  NoDup (map id (tasks (run (mkApp [sample_task 1 TODO []] 2) sample_run).1))
  ∧ Forall (λ t, id t < current_id (run (mkApp [sample_task 1 TODO []] 2) sample_run).1)
           (tasks (run (mkApp [sample_task 1 TODO []] 2) sample_run).1).
Proof.
  apply (session_ids_distinct
           (mkDisk (Some (Document two_records_second_corrupt)) true)
           (mkApp [sample_task 1 TODO []] 2) (Some ValueError) sample_run).
  - vm_compute. reflexivity.
  - vm_compute. repeat constructor. by inversion 1.
Defined.
